(** * Ingestion gateway (cloudrun/main.py): model and verified properties

    A shallow embedding of the Flask handlers [ingest_api] and
    [ingest_all_apis] of [cloudrun/main.py].  Python values are modelled
    by inductive types, the outside world (upstream HTTP servers, the UTC
    clock, the object store) by an oracle record, and the handlers by a
    small state-and-exception monad that records every effect in a trace. *)

From Stdlib Require Import ZArith NArith Ascii String List Lia.
From Stdlib Require Import SpecFloat.
From stdpp Require Import gmap strings list.

Local Open Scope Z_scope.
#[local] Set Warnings "-register-all".

(** ** Python strings *)

Module PyStr.

(** [s[:n]] for a non-negative [n]. *)
Fixpoint take (n : nat) (s : string) : string :=
  match n, s with
  | S n', String c s' => String c (take n' s')
  | _, _ => EmptyString
  end.

(** [s[:-k]]: everything but the last [k] characters. *)
Definition drop_last (k : nat) (s : string) : string :=
  take (String.length s - k) s.

(** ["0" * n]. *)
Fixpoint zeros (n : nat) : string :=
  match n with
  | O => EmptyString
  | S n' => String "0" (zeros n')
  end.

(** [s.startswith(p)]. *)
Fixpoint startswith (p s : string) : bool :=
  match p, s with
  | EmptyString, _ => true
  | String a p', String b s' => if Ascii.eqb a b then startswith p' s' else false
  | String _ _, EmptyString => false
  end.

(** [p in s] for strings. *)
Fixpoint contains (p s : string) : bool :=
  if startswith p s then true
  else match s with
       | EmptyString => false
       | String _ s' => contains p s'
       end.

(** [s.replace(old, new)] for a non-empty [old]: occurrences are replaced
    left to right and do not overlap.  [skip] counts the characters of an
    occurrence just replaced that are still to be passed over. *)
Fixpoint replace_from (skip : nat) (old new s : string) : string :=
  match s with
  | EmptyString => EmptyString
  | String c s' =>
      match skip with
      | S k => replace_from k old new s'
      | O =>
          if startswith old s
          then new +:+ replace_from (String.length old - 1) old new s'
          else String c (replace_from O old new s')
      end
  end.

Definition replace (old new s : string) : string := replace_from O old new s.

(** The decimal digit [d] (for [d < 10]). *)
Definition digit (d : N) : ascii := ascii_of_N (48 + d).

(** Decimal digits of [n], most significant first, pushed in front of
    [acc]; [fuel] bounds the number of digits. *)
Fixpoint digits_from (fuel : nat) (n : N) (acc : string) : string :=
  match fuel with
  | O => acc
  | S fuel' =>
      let acc' := String (digit (n mod 10)) acc in
      if (n / 10 =? 0)%N then acc' else digits_from fuel' (n / 10) acc'
  end.

(** [str(n)] for a natural number: a number has no more decimal digits
    than binary ones. *)
Definition str_N (n : N) : string := digits_from (S (N.size_nat n)) n EmptyString.

(** [str(z)] for a Python int. *)
Definition str (z : Z) : string :=
  if z <? 0 then String "-" (str_N (Z.abs_N z)) else str_N (Z.abs_N z).

(** [format(z, "0<w>d")], the [{z:0<w>d}] of an f-string: sign first, then
    zeros up to a total width of [w], then the digits; a number too wide
    for [w] is printed in full. *)
Definition format_0d (w : nat) (z : Z) : string :=
  let sign := if z <? 0 then String "-" EmptyString else EmptyString in
  let body := str_N (Z.abs_N z) in
  sign +:+ zeros (w - String.length sign - String.length body) +:+ body.

End PyStr.

(** ** datetime *)

(** An aware [datetime] in UTC: the calendar fields of one instant. *)
Record datetime := {
  year : Z;
  month : Z;
  day : Z;
  hour : Z;
  minute : Z;
  second : Z;
  microsecond : Z
}.

(** The ranges the [datetime] constructor enforces (MINYEAR = 1,
    MAXYEAR = 9999). *)
Definition valid_datetime (t : datetime) : Prop :=
  1 <= year t <= 9999 /\ 1 <= month t <= 12 /\ 1 <= day t <= 31 /\
  0 <= hour t < 24 /\ 0 <= minute t < 60 /\ 0 <= second t < 60 /\
  0 <= microsecond t < 1000000.

(** One [%x] directive of [strftime], as the C library of the platform
    (glibc) prints those the handler uses: [%Y] is the year as a decimal
    number, without padding, so that it has four digits only from year 1000
    on; the other fields are zero-padded. *)
Definition strftime_directive (c : ascii) (t : datetime) : string :=
  if Ascii.eqb c "Y" then PyStr.str (year t)
  else if Ascii.eqb c "m" then PyStr.format_0d 2 (month t)
  else if Ascii.eqb c "d" then PyStr.format_0d 2 (day t)
  else if Ascii.eqb c "H" then PyStr.format_0d 2 (hour t)
  else if Ascii.eqb c "M" then PyStr.format_0d 2 (minute t)
  else if Ascii.eqb c "S" then PyStr.format_0d 2 (second t)
  else if Ascii.eqb c "f" then PyStr.format_0d 6 (microsecond t)
  else String "%" (String c EmptyString).

(** [t.strftime(fmt)]. *)
Fixpoint strftime (fmt : string) (t : datetime) : string :=
  match fmt with
  | EmptyString => EmptyString
  | String c rest =>
      match rest with
      | String d rest' =>
          if Ascii.eqb c "%" then strftime_directive d t +:+ strftime rest' t
          else String c (strftime rest t)
      | EmptyString => String c EmptyString
      end
  end.

(** [t.isoformat()] of an aware UTC datetime: the fraction is left out
    when [microsecond] is 0, and the offset is always [+00:00]. *)
Definition isoformat (t : datetime) : string :=
  PyStr.format_0d 4 (year t) +:+ "-" +:+ PyStr.format_0d 2 (month t) +:+ "-" +:+
  PyStr.format_0d 2 (day t) +:+ "T" +:+ PyStr.format_0d 2 (hour t) +:+ ":" +:+
  PyStr.format_0d 2 (minute t) +:+ ":" +:+ PyStr.format_0d 2 (second t) +:+
  (if microsecond t =? 0 then "" else "." +:+ PyStr.format_0d 6 (microsecond t)) +:+
  "+00:00".

(** ** Python values *)

(** A decoded JSON document, as [json.loads] and [Response.json()] build
    it: [None], [bool], [int], [float], [str], [list] and [dict] (whose
    keys are strings and keep their insertion order). *)
Inductive json : Type :=
| JNull
| JBool (b : bool)
| JInt (n : Z)
| JFloat (f : spec_float)
| JStr (s : string)
| JList (items : list json)
| JDict (fields : list (string * json)).

(** [d.get(k)] on the fields of a dict. *)
Fixpoint dict_get (k : string) (fields : list (string * json)) : option json :=
  match fields with
  | [] => None
  | (k', v) :: rest => if String.eqb k' k then Some v else dict_get k rest
  end.

(** [v[k]] when [v] is a dict. *)
Definition field (k : string) (v : json) : option json :=
  match v with
  | JDict fields => dict_get k fields
  | _ => None
  end.

(** [len(data) if isinstance(data, list) else 1]. *)
Definition records_ingested (data : json) : Z :=
  match data with
  | JList items => Z.of_nat (length items)
  | _ => 1
  end.

(** ** Exceptions *)

(** The exception classes that reach the handlers.  The first four belong
    to [requests.exceptions]; [RequestsJSONDecodeError] is
    [requests.exceptions.JSONDecodeError] (requests 2.27 and later),
    [JSONDecodeError] is [json.JSONDecodeError]. *)
Inductive exn_class : Type :=
| RequestsConnectionError
| RequestsTimeout
| RequestsHTTPError
| RequestsJSONDecodeError
| JSONDecodeError
| UnicodeEncodeError
| TypeError
| ValueError
| GoogleAPIError
| RuntimeError.

(** An exception object: its class and its text, [str(e)]. *)
Record exn := { exn_cls : exn_class; exn_str : string }.

(** [isinstance(e, requests.exceptions.RequestException)]. *)
Definition is_RequestException (e : exn) : bool :=
  match exn_cls e with
  | RequestsConnectionError | RequestsTimeout | RequestsHTTPError
  | RequestsJSONDecodeError => true
  | _ => false
  end.

(** [isinstance(e, (TypeError, ValueError))]:
    [requests.exceptions.JSONDecodeError] also derives from
    [json.JSONDecodeError], a [ValueError], like [UnicodeEncodeError]. *)
Definition is_TypeError_or_ValueError (e : exn) : bool :=
  match exn_cls e with
  | TypeError | ValueError | JSONDecodeError | UnicodeEncodeError
  | RequestsJSONDecodeError => true
  | _ => false
  end.

Inductive outcome (A : Type) : Type :=
| Returned (a : A)
| Raised (e : exn).
Arguments Returned {A} a.
Arguments Raised {A} e.

(** ** The outside world *)

(** The arguments of one [requests.get] call. *)
Record get_call := {
  get_url : string;
  get_params : list (string * string);
  get_timeout : Z;
  get_headers : list (string * string)
}.

(** A [requests.Response]: status line, final URL, and what [.json()]
    does on its body. *)
Record response := {
  status_code : Z;
  reason : string;
  url : string;
  json_body : outcome json
}.

(** Effects, in the order they happen. *)
Inductive event : Type :=
| EvPrint (line : string)
| EvGet (c : get_call) (r : outcome response)
| EvNow (t : datetime)
| EvUpload (bucket key text content_type : string) (failure : option exn).

(** What the environment answers, given everything that happened before:
    [requests_get] either raises (transport-level failure) or returns a
    response; [utc_now] is the clock; [upload_from_string] tells whether
    the write to the bucket raises. *)
Record world := {
  requests_get : list event -> get_call -> outcome response;
  utc_now : list event -> datetime;
  upload_from_string : list event -> string -> string -> string -> string -> option exn
}.

(** The trace of effects so far and the objects of the configured bucket,
    by key. *)
Record state := {
  trace : list event;
  store : gmap string string
}.

(** ** Flask *)

(** The object built by [jsonify]: a response with status 200 and a JSON
    body, read back by [get_json]. *)
Inductive flask_response : Type :=
| Response (body : json).

Definition get_json (r : flask_response) : json :=
  match r with Response body => body end.

Definition jsonify (fields : list (string * json)) : flask_response :=
  Response (JDict fields).

(** What a view function returns: a bare response object, or the tuple
    [(response, status)]. *)
Inductive view_result : Type :=
| RetResponse (r : flask_response)
| RetTuple (r : flask_response) (status : Z).

(** The HTTP reply Flask makes of a view's outcome: a bare response keeps
    its status 200, a tuple sets the status, and an exception that leaves
    the view becomes the generic 500 page (no JSON body). *)
Record http_reply := { http_status : Z; http_json : option json }.

Definition make_response (o : outcome view_result) : http_reply :=
  match o with
  | Returned (RetResponse r) => {| http_status := 200; http_json := Some (get_json r) |}
  | Returned (RetTuple r status) => {| http_status := status; http_json := Some (get_json r) |}
  | Raised _ => {| http_status := 500; http_json := None |}
  end.

(** [request.args.to_dict()]: Werkzeug's [MultiDict.to_dict(flat=True)]
    keeps, for every key, its first value, keys in order of first
    appearance. *)
Fixpoint to_dict (args : list (string * string)) : list (string * string) :=
  match args with
  | [] => []
  | (k, v) :: rest =>
      (k, v) :: List.filter (fun kv => negb (String.eqb (fst kv) k)) (to_dict rest)
  end.

(** The registry lookup [POSTMAN_APIS[api_name]]. *)
Record api_config := { api_url : string; api_description : string }.

Fixpoint apis_get (api_name : string) (apis : list (string * api_config)) : option api_config :=
  match apis with
  | [] => None
  | (k, cfg) :: rest => if String.eqb k api_name then Some cfg else apis_get api_name rest
  end.

(** The registry of the source. *)
Definition POSTMAN_APIS : list (string * api_config) :=
  [ ("httpbin", {| api_url := "https://httpbin.org/json";
                   api_description := "HTTP testing service" |});
    ("jsonplaceholder", {| api_url := "https://jsonplaceholder.typicode.com/posts/1";
                           api_description := "Fake REST API for testing" |});
    ("reqres", {| api_url := "https://reqres.in/api/users?page=1";
                  api_description := "Test REST API" |});
    ("cat-facts", {| api_url := "https://catfact.ninja/fact";
                     api_description := "Cat facts API" |});
    ("dog-api", {| api_url := "https://dog.ceo/api/breeds/list/all";
                   api_description := "Dog breeds API" |}) ].

(** ** The handler monad: state and exceptions *)

Definition M (A : Type) : Type := state -> outcome A * state.

Definition ret {A} (a : A) : M A := fun st => (Returned a, st).

Definition bind {A B} (m : M A) (k : A -> M B) : M B :=
  fun st =>
    match m st with
    | (Returned a, st') => k a st'
    | (Raised e, st') => (Raised e, st')
    end.

Definition raise {A} (e : exn) : M A := fun st => (Raised e, st).

(** [try: body / except <classes>: handler]: [handler e] is [None] when no
    [except] clause matches [e], and the exception goes on. *)
Definition try_except {A} (body : M A) (handler : exn -> option (M A)) : M A :=
  fun st =>
    match body st with
    | (Returned a, st') => (Returned a, st')
    | (Raised e, st') =>
        match handler e with
        | Some h => h st'
        | None => (Raised e, st')
        end
    end.

Declare Scope py_scope.
Delimit Scope py_scope with py.
Notation "x <- m ;; k" := (bind m (fun x => k))
  (at level 100, m at next level, right associativity) : py_scope.
Notation "m ;;; k" := (bind m (fun _ => k))
  (at level 100, right associativity) : py_scope.

Definition log (ev : event) (st : state) : state :=
  {| trace := trace st ++ [ev]; store := store st |}.

Definition print (line : string) : M unit :=
  fun st => (Returned tt, log (EvPrint line) st).

(** The [HTTPError] that [raise_for_status] builds from [http_error_msg]:
    only 4xx and 5xx statuses have one. *)
Definition status_error (r : response) : option exn :=
  if (400 <=? status_code r) && (status_code r <? 500) then
    Some {| exn_cls := RequestsHTTPError;
            exn_str := PyStr.str (status_code r) +:+ " Client Error: " +:+ reason r
                       +:+ " for url: " +:+ url r |}
  else if (500 <=? status_code r) && (status_code r <? 600) then
    Some {| exn_cls := RequestsHTTPError;
            exn_str := PyStr.str (status_code r) +:+ " Server Error: " +:+ reason r
                       +:+ " for url: " +:+ url r |}
  else None.

(** [response.raise_for_status()]. *)
Definition raise_for_status (r : response) : M unit :=
  match status_error r with
  | Some e => raise e
  | None => ret tt
  end.

(** [response.json()]. *)
Definition response_json (r : response) : M json :=
  match json_body r with
  | Returned data => ret data
  | Raised e => raise e
  end.

(** [result[1]] and [result[0]] on what a view returned: a tuple can be
    indexed, a [Response] object cannot. *)
Definition not_subscriptable : exn :=
  {| exn_cls := TypeError; exn_str := "'Response' object is not subscriptable" |}.

Definition subscript_1 (result : view_result) : M Z :=
  match result with
  | RetTuple _ status => ret status
  | RetResponse _ => raise not_subscriptable
  end.

Definition subscript_0 (result : view_result) : M flask_response :=
  match result with
  | RetTuple r _ => ret r
  | RetResponse _ => raise not_subscriptable
  end.

Section Gateway.

Local Open Scope py_scope.

(** The environment variable [GCS_BUCKET], the registry, the serializer
    [json.dumps(., indent=2, ensure_ascii=False)], the environment, and
    the query parameters [request.args] of the request being served. *)
Variable GCS_BUCKET : string.
Variable APIS : list (string * api_config).
Variable json_dumps : json -> string.
Variable w : world.
Variable request_args : list (string * string).

Definition http_get (c : get_call) : M response :=
  fun st =>
    let r := requests_get w (trace st) c in
    (r, log (EvGet c r) st).

Definition datetime_now_utc : M datetime :=
  fun st =>
    let t := utc_now w (trace st) in
    (Returned t, log (EvNow t) st).

(** [storage_client.bucket(GCS_BUCKET).blob(key).upload_from_string(text,
    content_type=...)]: the object is stored unless the call raises. *)
Definition blob_upload (key text content_type : string) : M unit :=
  fun st =>
    let r := upload_from_string w (trace st) GCS_BUCKET key text content_type in
    match r with
    | None =>
        (Returned tt,
         {| trace := trace st ++ [EvUpload GCS_BUCKET key text content_type None];
            store := <[key := text]> (store st) |})
    | Some e => (Raised e, log (EvUpload GCS_BUCKET key text content_type r) st)
    end.

(** The [partition_path] and [filename] of [ingest_api]. *)
Definition partition_path (api_name : string) (timestamp : datetime) : string :=
  "api_name=" +:+ api_name +:+ "/year=" +:+ PyStr.str (year timestamp)
  +:+ "/month=" +:+ PyStr.format_0d 2 (month timestamp)
  +:+ "/day=" +:+ PyStr.format_0d 2 (day timestamp).

Definition timestamp_str (timestamp : datetime) : string :=
  PyStr.drop_last 3 (strftime "%Y%m%d_%H%M%S_%f" timestamp).

Definition filename (api_name : string) (timestamp : datetime) : string :=
  partition_path api_name timestamp +:+ "/data_" +:+ timestamp_str timestamp +:+ ".json".

Definition ingestion_timestamp (timestamp : datetime) : string :=
  PyStr.replace "+00:00" "Z" (isoformat timestamp).

Definition params_json (params : list (string * string)) : json :=
  JDict (map (fun kv => (fst kv, JStr (snd kv))) params).

(** The [full_data] record of [ingest_api]. *)
Definition full_data (api_name : string) (cfg : api_config) (r : response)
    (params : list (string * string)) (timestamp : datetime) (data : json) : json :=
  JDict
    [ ("metadata",
       JDict
         [ ("ingestion_timestamp", JStr (ingestion_timestamp timestamp));
           ("api_name", JStr api_name);
           ("api_url", JStr (api_url cfg));
           ("api_description", JStr (api_description cfg));
           ("response_status", JInt (status_code r));
           ("request_params",
            params_json (match params with [] => [] | _ => params end)) ]);
      ("data", data) ].

(** What the first [try] block of [ingest_api] leaves for the code after
    it: either the handler has returned, or these locals are set. *)
Record fetched := {
  f_data : json;
  f_filename : string;
  f_full_data : json
}.

(** [ingest_api(api_name)]. *)
Definition ingest_api (api_name : string) : M view_result :=
  match apis_get api_name APIS with
  | None =>
      ret (RetTuple
             (jsonify
                [ ("status", JStr "error");
                  ("message", JStr ("API '" +:+ api_name +:+ "' not found"));
                  ("available_apis", JList (map (fun kv => JStr (fst kv)) APIS)) ])
             404)
  | Some api_config =>
      r <- try_except
             (let params := to_dict request_args in
              print ("Attempting to fetch from: " +:+ api_url api_config) ;;;
              response <- http_get
                {| get_url := api_url api_config;
                   get_params := params;
                   get_timeout := 30;
                   get_headers := [("User-Agent", "GCP-API-Ingestion/1.0")] |} ;;
              raise_for_status response ;;;
              data <- response_json response ;;
              print ("Successfully fetched data from " +:+ api_name) ;;;
              timestamp <- datetime_now_utc ;;
              ret (inr {| f_data := data;
                          f_filename := filename api_name timestamp;
                          f_full_data :=
                            full_data api_name api_config response params timestamp data |}))
             (fun e =>
                if is_RequestException e then
                  Some (print ("Request failed for " +:+ api_name +:+ ": " +:+ exn_str e) ;;;
                        ret (inl (RetTuple
                                    (jsonify
                                       [ ("status", JStr "error");
                                         ("message",
                                          JStr ("Failed to fetch data from " +:+ api_name
                                                +:+ ": " +:+ exn_str e));
                                         ("api_url", JStr (api_url api_config));
                                         ("suggestion",
                                          JStr "Try a different API or check network connectivity") ])
                                    500)))
                else
                  Some (print ("Unexpected error for " +:+ api_name +:+ ": " +:+ exn_str e) ;;;
                        ret (inl (RetTuple
                                    (jsonify
                                       [ ("status", JStr "error");
                                         ("message", JStr ("Unexpected error: " +:+ exn_str e)) ])
                                    500)))) ;;
      match r with
      | inl early => ret early
      | inr f =>
          try_except
            (let json_str := json_dumps (f_full_data f) in
             blob_upload (f_filename f) json_str "application/json" ;;;
             ret (RetResponse
                    (jsonify
                       [ ("status", JStr "success");
                         ("api_name", JStr api_name);
                         ("file", JStr (f_filename f));
                         ("gcs_path", JStr ("gs://" +:+ GCS_BUCKET +:+ "/" +:+ f_filename f));
                         ("records_ingested", JInt (records_ingested (f_data f)));
                         ("ingestion_timestamp",
                          match field "metadata" (f_full_data f) with
                          | Some metadata =>
                              match field "ingestion_timestamp" metadata with
                              | Some ts => ts
                              | None => JNull
                              end
                          | None => JNull
                          end) ])))
            (fun json_error =>
               if is_TypeError_or_ValueError json_error then
                 Some (print ("JSON serialization error: " +:+ exn_str json_error) ;;;
                       ret (RetTuple
                              (jsonify
                                 [ ("status", JStr "error");
                                   ("message",
                                    JStr ("JSON serialization failed: " +:+ exn_str json_error)) ])
                              500))
               else None)
      end
  end.

(** One turn of the [for] loop of [ingest_all_apis]. *)
Definition ingest_all_entry (api_name : string) : M json :=
  try_except
    (result <- ingest_api api_name ;;
     status <- subscript_1 result ;;
     r0 <- subscript_0 result ;;
     ret (JDict
            [ ("api_name", JStr api_name);
              ("status", JStr (if status =? 200 then "success" else "error"));
              ("result", get_json r0) ]))
    (fun e =>
       Some (ret (JDict
                    [ ("api_name", JStr api_name);
                      ("status", JStr "error");
                      ("error", JStr (exn_str e)) ]))).

Fixpoint ingest_all_loop (names : list string) (results : list json) : M (list json) :=
  match names with
  | [] => ret results
  | api_name :: rest =>
      entry <- ingest_all_entry api_name ;;
      ingest_all_loop rest (results ++ [entry])
  end.

(** [ingest_all_apis()]. *)
Definition ingest_all_apis : M view_result :=
  results <- ingest_all_loop (map fst APIS) [] ;;
  ret (RetResponse
         (jsonify
            [ ("status", JStr "completed");
              ("message", JStr "Bulk ingestion completed");
              ("results", JList results) ])).

(** The routes [/ingest/<api_name>] and [/ingest-all] as Flask serves
    them. *)
Definition route_ingest (api_name : string) (st : state) : http_reply * state :=
  let (o, st') := ingest_api api_name st in (make_response o, st').

Definition route_ingest_all (st : state) : http_reply * state :=
  let (o, st') := ingest_all_apis st in (make_response o, st').

End Gateway.

(** ** The formats the specification names *)

(** Exactly [w] decimal digits of [n], zero-padded: its [w] lowest
    digits, most significant first. *)
Fixpoint fixed_digits (w : nat) (n : N) : string :=
  match w with
  | O => EmptyString
  | S w' => fixed_digits w' (n / 10) +:+ String (PyStr.digit (n mod 10)) EmptyString
  end.

(** [DD], [YYYY], [mmm]: a field printed on exactly [w] digits. *)
Definition decimal (w : nat) (z : Z) : string := fixed_digits w (Z.to_N z).

(** The number that a string of decimal digits denotes; [None] when a
    character is not a digit. *)
Fixpoint digits_value_from (acc : N) (s : string) : option N :=
  match s with
  | EmptyString => Some acc
  | String c s' =>
      if (48 <=? N_of_ascii c)%N && (N_of_ascii c <=? 57)%N
      then digits_value_from (10 * acc + (N_of_ascii c - 48)) s'
      else None
  end.

Definition digits_value (s : string) : option Z :=
  option_map Z.of_N (digits_value_from 0 s).

(** An instant of the common era as the clock gives it: fields in range
    and a four-digit year (before year 1000 [%Y] prints fewer than four
    digits). *)
Definition four_digit_year (t : datetime) : Prop :=
  valid_datetime t /\ 1000 <= year t.

(** [s] is the number [value] written on exactly [width] decimal digits,
    with leading zeros where the number is shorter. *)
Definition written_on (width : nat) (value : Z) (s : string) : Prop :=
  String.length s = width /\ digits_value s = Some value.

(** [YYYYMMDD_HHMMSS_mmm] for the instant [t], the milliseconds being the
    microseconds divided by 1000. *)
Definition stamp_form (t : datetime) : string :=
  decimal 4 (year t) +:+ decimal 2 (month t) +:+ decimal 2 (day t) +:+ "_" +:+
  decimal 2 (hour t) +:+ decimal 2 (minute t) +:+ decimal 2 (second t) +:+ "_" +:+
  decimal 3 (microsecond t / 1000).

(** [api_name=<name>/year=<Y>/month=<MM>/day=<DD>/data_<stamp>.json]. *)
Definition object_key_form (api_name : string) (t : datetime) : string :=
  "api_name=" +:+ api_name +:+ "/year=" +:+ PyStr.str (year t) +:+
  "/month=" +:+ decimal 2 (month t) +:+ "/day=" +:+ decimal 2 (day t) +:+
  "/data_" +:+ stamp_form t +:+ ".json".

(** [YYYY-MM-DD], the calendar date of [t] as ISO-8601 writes it. *)
Definition iso_date_form (t : datetime) : string :=
  decimal 4 (year t) +:+ "-" +:+ decimal 2 (month t) +:+ "-" +:+ decimal 2 (day t).

(** Every character of [s] satisfies [p]. *)
Fixpoint all_chars (p : ascii -> bool) (s : string) : bool :=
  match s with
  | EmptyString => true
  | String c s' => p c && all_chars p s'
  end.

Definition is_digit (c : ascii) : bool :=
  (48 <=? N_of_ascii c)%N && (N_of_ascii c <=? 57)%N.

Definition not_plus (c : ascii) : bool := negb (Ascii.eqb c "+").

(** [HH:MM:SS] and, unless it is zero, [.ffffff]: the time of day as
    ISO-8601 writes it. *)
Definition iso_time_form (t : datetime) : string :=
  decimal 2 (hour t) +:+ ":" +:+ decimal 2 (minute t) +:+ ":" +:+ decimal 2 (second t) +:+
  (if microsecond t =? 0 then "" else "." +:+ decimal 6 (microsecond t)).

(** ** The paths of [ingest_api] *)

Section Runs.

Context (GCS_BUCKET : string) (APIS : list (string * api_config))
        (json_dumps : json -> string) (w : world)
        (request_args : list (string * string)).

(** The one [requests.get] call of an ingestion. *)
Definition upstream_call (cfg : api_config) : get_call :=
  {| get_url := api_url cfg;
     get_params := to_dict request_args;
     get_timeout := 30;
     get_headers := [("User-Agent", "GCP-API-Ingestion/1.0")] |}.

Definition attempt_line (cfg : api_config) : event :=
  EvPrint ("Attempting to fetch from: " +:+ api_url cfg).

Definition fetched_line (api_name : string) : event :=
  EvPrint ("Successfully fetched data from " +:+ api_name).

(** What the upstream answers to that call. *)
Definition upstream_answer (st : state) (cfg : api_config) : outcome response :=
  requests_get w (trace st ++ [attempt_line cfg]) (upstream_call cfg).

(** The trace once the call is over. *)
Definition after_get (st : state) (cfg : api_config) : list event :=
  (trace st ++ [attempt_line cfg]) ++ [EvGet (upstream_call cfg) (upstream_answer st cfg)].

(** The fetch succeeds when the call returns, the status is not an error
    status and the body decodes; otherwise one exception leaves the first
    [try] block. *)
Definition fetch_result (o : outcome response) : exn + (response * json) :=
  match o with
  | Raised e => inl e
  | Returned r =>
      match status_error r with
      | Some e => inl e
      | None =>
          match json_body r with
          | Raised e => inl e
          | Returned data => inr (r, data)
          end
      end
  end.

(** The instant read after the fetch. *)
Definition ingestion_instant (st : state) (cfg : api_config) (api_name : string) : datetime :=
  utc_now w (after_get st cfg ++ [fetched_line api_name]).

Definition before_upload (st : state) (cfg : api_config) (api_name : string) : list event :=
  (after_get st cfg ++ [fetched_line api_name]) ++ [EvNow (ingestion_instant st cfg api_name)].

(** The four error bodies and the success body. *)
Definition not_found_body (api_name : string) : list (string * json) :=
  [ ("status", JStr "error");
    ("message", JStr ("API '" +:+ api_name +:+ "' not found"));
    ("available_apis", JList (map (fun kv => JStr (fst kv)) APIS)) ].

Definition fetch_failed_body (api_name : string) (cfg : api_config) (e : exn)
    : list (string * json) :=
  [ ("status", JStr "error");
    ("message", JStr ("Failed to fetch data from " +:+ api_name +:+ ": " +:+ exn_str e));
    ("api_url", JStr (api_url cfg));
    ("suggestion", JStr "Try a different API or check network connectivity") ].

Definition unexpected_body (e : exn) : list (string * json) :=
  [ ("status", JStr "error");
    ("message", JStr ("Unexpected error: " +:+ exn_str e)) ].

Definition serialization_failed_body (e : exn) : list (string * json) :=
  [ ("status", JStr "error");
    ("message", JStr ("JSON serialization failed: " +:+ exn_str e)) ].

Definition success_body (api_name : string) (t : datetime) (data : json)
    : list (string * json) :=
  [ ("status", JStr "success");
    ("api_name", JStr api_name);
    ("file", JStr (filename api_name t));
    ("gcs_path", JStr ("gs://" +:+ GCS_BUCKET +:+ "/" +:+ filename api_name t));
    ("records_ingested", JInt (records_ingested data));
    ("ingestion_timestamp", JStr (ingestion_timestamp t)) ].

(** The reply and the log line of the two handlers of the first [try]. *)
Definition fetch_error_reply (api_name : string) (cfg : api_config) (e : exn) : view_result :=
  if is_RequestException e
  then RetTuple (jsonify (fetch_failed_body api_name cfg e)) 500
  else RetTuple (jsonify (unexpected_body e)) 500.

Definition fetch_error_line (api_name : string) (e : exn) : event :=
  if is_RequestException e
  then EvPrint ("Request failed for " +:+ api_name +:+ ": " +:+ exn_str e)
  else EvPrint ("Unexpected error for " +:+ api_name +:+ ": " +:+ exn_str e).

(** The text written on success. *)
Definition stored_text (api_name : string) (cfg : api_config) (r : response)
    (t : datetime) (data : json) : string :=
  json_dumps (full_data api_name cfg r (to_dict request_args) t data).

Definition upload_answer (st : state) (cfg : api_config) (api_name : string)
    (r : response) (data : json) : option exn :=
  let t := ingestion_instant st cfg api_name in
  upload_from_string w (before_upload st cfg api_name) GCS_BUCKET
    (filename api_name t) (stored_text api_name cfg r t data) "application/json".

Definition upload_event (st : state) (cfg : api_config) (api_name : string)
    (r : response) (data : json) : event :=
  let t := ingestion_instant st cfg api_name in
  EvUpload GCS_BUCKET (filename api_name t) (stored_text api_name cfg r t data)
    "application/json" (upload_answer st cfg api_name r data).

(** The five ways a call of [ingest_api] can go, with what it returns and
    the state it leaves. *)
Inductive ingest_run (api_name : string) (st : state) :
    outcome view_result -> state -> Prop :=
| run_not_found :
    apis_get api_name APIS = None ->
    ingest_run api_name st
      (Returned (RetTuple (jsonify (not_found_body api_name)) 404)) st
| run_fetch_error (cfg : api_config) (e : exn) :
    apis_get api_name APIS = Some cfg ->
    fetch_result (upstream_answer st cfg) = inl e ->
    ingest_run api_name st
      (Returned (fetch_error_reply api_name cfg e))
      {| trace := after_get st cfg ++ [fetch_error_line api_name e];
         store := store st |}
| run_stored (cfg : api_config) (r : response) (data : json) :
    apis_get api_name APIS = Some cfg ->
    fetch_result (upstream_answer st cfg) = inr (r, data) ->
    upload_answer st cfg api_name r data = None ->
    ingest_run api_name st
      (Returned (RetResponse
                   (jsonify (success_body api_name (ingestion_instant st cfg api_name) data))))
      {| trace := before_upload st cfg api_name ++ [upload_event st cfg api_name r data];
         store := <[filename api_name (ingestion_instant st cfg api_name) :=
                      stored_text api_name cfg r (ingestion_instant st cfg api_name) data]>
                    (store st) |}
| run_serialization_failed (cfg : api_config) (r : response) (data : json) (e : exn) :
    apis_get api_name APIS = Some cfg ->
    fetch_result (upstream_answer st cfg) = inr (r, data) ->
    upload_answer st cfg api_name r data = Some e ->
    is_TypeError_or_ValueError e = true ->
    ingest_run api_name st
      (Returned (RetTuple (jsonify (serialization_failed_body e)) 500))
      {| trace := (before_upload st cfg api_name ++ [upload_event st cfg api_name r data])
                  ++ [EvPrint ("JSON serialization error: " +:+ exn_str e)];
         store := store st |}
| run_upload_raised (cfg : api_config) (r : response) (data : json) (e : exn) :
    apis_get api_name APIS = Some cfg ->
    fetch_result (upstream_answer st cfg) = inr (r, data) ->
    upload_answer st cfg api_name r data = Some e ->
    is_TypeError_or_ValueError e = false ->
    ingest_run api_name st (Raised e)
      {| trace := before_upload st cfg api_name ++ [upload_event st cfg api_name r data];
         store := store st |}.

End Runs.

(** ** Observations on replies and traces *)

(** A field of the JSON body of a reply. *)
Definition reply_field (k : string) (reply : http_reply) : option json :=
  match http_json reply with
  | Some body => field k body
  | None => None
  end.

(** The [requests.get] calls and the uploads of a trace. *)
Definition get_calls (tr : list event) : list get_call :=
  flat_map (fun ev => match ev with EvGet c _ => [c] | _ => [] end) tr.

Definition uploads (tr : list event) : list (string * string) :=
  flat_map (fun ev => match ev with EvUpload _ key text _ _ => [(key, text)] | _ => [] end) tr.

Definition clock_reads (tr : list event) : list datetime :=
  flat_map (fun ev => match ev with EvNow t => [t] | _ => [] end) tr.

(** Some string of the JSON value contains [needle]. *)
Fixpoint mentions (needle : string) (v : json) : bool :=
  match v with
  | JStr s => PyStr.contains needle s
  | JList items => existsb (mentions needle) items
  | JDict fields => existsb (fun kv => mentions needle (snd kv)) fields
  | _ => false
  end.

(** The value a query string gives to [k]: that of its first occurrence. *)
Fixpoint first_value (k : string) (args : list (string * string)) : option string :=
  match args with
  | [] => None
  | (k', v) :: rest => if String.eqb k' k then Some v else first_value k rest
  end.

(** The tag and the name of an entry of the [results] list of
    [/ingest-all]. *)
Definition entry_tag (entry : json) : option json := field "status" entry.
Definition entry_name (entry : json) : option json := field "api_name" entry.

(** The reply is the 500 of the upstream-failure handler: it carries the
    text of the upstream error and the attempted URL. *)
Definition surfaces_upstream_error (reply : http_reply) (api_name attempted_url : string)
    (e : exn) : Prop :=
  http_status reply = 500 /\
  reply_field "api_url" reply = Some (JStr attempted_url) /\
  reply_field "message" reply =
    Some (JStr ("Failed to fetch data from " +:+ api_name +:+ ": " +:+ exn_str e)).

(** The reply is the 500 of the catch-all handler. *)
Definition is_unexpected_error (reply : http_reply) (e : exn) : Prop :=
  http_status reply = 500 /\
  http_json reply =
    Some (JDict [ ("status", JStr "error");
                  ("message", JStr ("Unexpected error: " +:+ exn_str e)) ]).

(** The record that a successful ingestion serializes, as section 3 of
    the specification lists its fields. *)
Definition ingestion_record (ts api_name : string) (cfg : api_config) (status : Z)
    (params : list (string * string)) (data : json) : json :=
  JDict
    [ ("metadata",
       JDict [ ("ingestion_timestamp", JStr ts);
               ("api_name", JStr api_name);
               ("api_url", JStr (api_url cfg));
               ("api_description", JStr (api_description cfg));
               ("response_status", JInt status);
               ("request_params", JDict (map (fun kv => (fst kv, JStr (snd kv))) params)) ]);
      ("data", data) ].

(** The alternative of section 8 for a registered name: a 200 whose
    [gcs_path] begins with [gs://<bucket>/api_name=<name>/], or a 5xx whose
    body names the attempted URL. *)
Definition stored_or_names_url (bucket api_name attempted_url : string)
    (reply : http_reply) : Prop :=
  (http_status reply = 200 /\
   exists rest : string,
     reply_field "gcs_path" reply =
       Some (JStr ("gs://" +:+ bucket +:+ "/api_name=" +:+ api_name +:+ "/" +:+ rest)))
  \/
  (500 <= http_status reply < 600 /\
   exists body : json,
     http_json reply = Some body /\ mentions attempted_url body = true).

(** ** Sample environments *)

Module Sample.

Definition bucket : string := "ingest-landing".

(** 2024-03-07 09:05:01.004567 UTC. *)
Definition instant : datetime :=
  {| year := 2024; month := 3; day := 7;
     hour := 9; minute := 5; second := 1; microsecond := 4567 |}.

Definition ok_response (body : outcome json) : response :=
  {| status_code := 200; reason := "OK"; url := "https://httpbin.org/json";
     json_body := body |}.

(** Every upstream answers 200 with the JSON document [data]; the store
    accepts every write. *)
Definition serving (data : json) : world :=
  {| requests_get := fun _ _ => Returned (ok_response (Returned data));
     utc_now := fun _ => instant;
     upload_from_string := fun _ _ _ _ _ => None |}.

(** Every upstream answers 200 with a body that is not JSON, and
    [Response.json()] raises [requests.exceptions.JSONDecodeError]. *)
Definition not_json_error : exn :=
  {| exn_cls := RequestsJSONDecodeError;
     exn_str := "Expecting value: line 1 column 1 (char 0)" |}.

Definition not_json_response : response := ok_response (Raised not_json_error).

Definition not_json : world :=
  {| requests_get := fun _ _ => Returned not_json_response;
     utc_now := fun _ => instant;
     upload_from_string := fun _ _ _ _ _ => None |}.

(** No upstream can be reached. *)
Definition unreachable : world :=
  {| requests_get := fun _ _ =>
       Raised {| exn_cls := RequestsConnectionError;
                 exn_str := "Max retries exceeded with url: /json" |};
     utc_now := fun _ => instant;
     upload_from_string := fun _ _ _ _ _ => None |}.

(** The document does not encode to UTF-8 (it holds a lone surrogate):
    the upload raises [UnicodeEncodeError], a [ValueError]. *)
Definition unencodable : world :=
  {| requests_get := fun _ _ => Returned (ok_response (Returned (JStr "\ud800")));
     utc_now := fun _ => instant;
     upload_from_string := fun _ _ _ _ _ =>
       Some {| exn_cls := UnicodeEncodeError;
               exn_str := "'utf-8' codec can't encode character '\ud800' in position 1: surrogates not allowed" |} |}.

(** The upstream answers 503. *)
Definition overloaded : world :=
  {| requests_get := fun _ _ =>
       Returned {| status_code := 503; reason := "Service Unavailable";
                   url := "https://httpbin.org/json";
                   json_body := Returned JNull |};
     utc_now := fun _ => instant;
     upload_from_string := fun _ _ _ _ _ => None |}.

Definition empty_state : state := {| trace := []; store := ∅ |}.

Definition three_records : json := JList [JInt 1; JInt 2; JInt 3].

(** [?page=2&limit=10] and [?tag=a&tag=b]. *)
Definition plain_query : list (string * string) := [("page", "2"); ("limit", "10")].
Definition repeated_query : list (string * string) := [("tag", "a"); ("tag", "b")].

Definition httpbin : api_config :=
  {| api_url := "https://httpbin.org/json"; api_description := "HTTP testing service" |}.

(** *** A serializer with an inverse

    Any pair [json_dumps], [json_loads] with [json_loads (json_dumps v) =
    Some v] will do for the round-trip property; this one numbers the
    documents and writes the number in binary. *)

Inductive leaf : Type :=
| LBool (b : bool)
| LInt (n : Z)
| LFloat (f : spec_float)
| LStr (s : string).

Fixpoint to_tree (v : json) : gen_tree leaf :=
  match v with
  | JNull => GenNode 0 []
  | JBool b => GenLeaf (LBool b)
  | JInt n => GenLeaf (LInt n)
  | JFloat f => GenLeaf (LFloat f)
  | JStr s => GenLeaf (LStr s)
  | JList items => GenNode 1 (map to_tree items)
  | JDict fields =>
      GenNode 2 (map (fun kv => match kv with
                                | (k, v') => GenNode 3 [GenLeaf (LStr k); to_tree v']
                                end) fields)
  end.

Fixpoint of_tree (t : gen_tree leaf) : json :=
  match t with
  | GenLeaf (LBool b) => JBool b
  | GenLeaf (LInt n) => JInt n
  | GenLeaf (LFloat f) => JFloat f
  | GenLeaf (LStr s) => JStr s
  | GenNode 1 ts => JList (map of_tree ts)
  | GenNode 2 ts =>
      JDict (map (fun t' => match t' with
                            | GenNode 3 [GenLeaf (LStr k); tv] => (k, of_tree tv)
                            | _ => (EmptyString, JNull)
                            end) ts)
  | GenNode _ _ => JNull
  end.

Fixpoint pos_bits (p : positive) : string :=
  match p with
  | xH => EmptyString
  | xO p' => String "0" (pos_bits p')
  | xI p' => String "1" (pos_bits p')
  end.

Fixpoint bits_pos (s : string) : positive :=
  match s with
  | EmptyString => xH
  | String c s' => if Ascii.eqb c "0" then xO (bits_pos s') else xI (bits_pos s')
  end.

#[global] Instance spec_float_eq_dec : EqDecision spec_float.
Proof. solve_decision. Defined.

#[global] Instance spec_float_countable : Countable spec_float.
Proof.
  refine (inj_countable'
            (fun f => match f with
                      | S754_zero s => inl s
                      | S754_infinity s => inr (inl s)
                      | S754_nan => inr (inr (inl tt))
                      | S754_finite s m e => inr (inr (inr (s, m, e)))
                      end)
            (fun x => match x with
                      | inl s => S754_zero s
                      | inr (inl s) => S754_infinity s
                      | inr (inr (inl _)) => S754_nan
                      | inr (inr (inr (s, m, e))) => S754_finite s m e
                      end) _).
  intros []; reflexivity.
Defined.

#[global] Instance leaf_eq_dec : EqDecision leaf.
Proof. solve_decision. Defined.

#[global] Instance leaf_countable : Countable leaf.
Proof.
  refine (inj_countable'
            (fun l => match l with
                      | LBool b => inl b
                      | LInt n => inr (inl n)
                      | LFloat f => inr (inr (inl f))
                      | LStr s => inr (inr (inr s))
                      end)
            (fun x => match x with
                      | inl b => LBool b
                      | inr (inl n) => LInt n
                      | inr (inr (inl f)) => LFloat f
                      | inr (inr (inr s)) => LStr s
                      end) _).
  intros []; reflexivity.
Defined.

Definition json_dumps (v : json) : string := pos_bits (encode (to_tree v)).

Definition json_loads (s : string) : option json :=
  match decode (bits_pos s) with
  | Some t => Some (of_tree t)
  | None => None
  end.

(** [GET /ingest/httpbin?<args>] in the environment [w], from the empty
    state. *)
Definition ingest_httpbin (w : world) (args : list (string * string)) : http_reply * state :=
  route_ingest bucket POSTMAN_APIS json_dumps w args "httpbin" empty_state.

Definition call_httpbin (w : world) (args : list (string * string))
    : outcome view_result * state :=
  ingest_api bucket POSTMAN_APIS json_dumps w args "httpbin" empty_state.

End Sample.

(** ** The other handlers of [cloudrun/main.py] *)

(** [results[k] = v] on the fields of a dict: the value of an existing
    key is replaced in place, a new key goes last. *)
Fixpoint dict_set (k : string) (v : json) (fields : list (string * json))
    : list (string * json) :=
  match fields with
  | [] => [(k, v)]
  | (k', v') :: rest =>
      if String.eqb k' k then (k, v) :: rest else (k', v') :: dict_set k v rest
  end.

(** The registry as [jsonify] writes it: a dict of dicts. *)
Definition apis_json (apis : list (string * api_config)) : json :=
  JDict (map (fun kv => (fst kv,
                         JDict [ ("url", JStr (api_url (snd kv)));
                                 ("description", JStr (api_description (snd kv))) ]))
           apis).

(** The two shapes of an entry of [/test-connectivity]. *)
Definition probe_success (elapsed : spec_float) (r : response) : json :=
  JDict [ ("status", JStr "success");
          ("status_code", JInt (status_code r));
          ("response_time", JFloat elapsed) ].

Definition probe_error (e : exn) : json :=
  JDict [ ("status", JStr "error"); ("error", JStr (exn_str e)) ].

(** The entry of an API whose GET had the outcome [o]: a response that
    came back is a success, with whatever status it has. *)
Definition probe_entry (elapsed : response -> spec_float) (o : outcome response) : json :=
  match o with
  | Returned r => probe_success (elapsed r) r
  | Raised e => probe_error e
  end.

Section Diagnostics.

Local Open Scope py_scope.

(** Besides the bucket, the registry and the environment of the ingestion
    handlers: the reading [response.elapsed.total_seconds()] of a
    response. *)
Variable GCS_BUCKET : string.
Variable APIS : list (string * api_config).
Variable w : world.
Variable elapsed_total_seconds : response -> spec_float.

(** [list_apis()]. *)
Definition list_apis : M view_result :=
  ret (RetResponse
         (jsonify
            [ ("status", JStr "success");
              ("message", JStr "Available APIs for ingestion");
              ("apis", apis_json APIS);
              ("usage", JStr "Use /ingest/<api_name> to ingest data from a specific API") ])).

(** [health_check()]. *)
Definition health_check : M view_result :=
  now <- datetime_now_utc w ;;
  ret (RetResponse
         (jsonify
            [ ("status", JStr "healthy");
              ("timestamp", JStr (isoformat now));
              ("gcs_bucket", JStr GCS_BUCKET) ])).

(** The call [requests.get(api_config["url"], timeout=10)] of
    [test_connectivity]: no parameters, no headers of its own. *)
Definition probe_call (cfg : api_config) : get_call :=
  {| get_url := api_url cfg; get_params := []; get_timeout := 10; get_headers := [] |}.

(** One turn of the loop of [test_connectivity]: the entry of one API. *)
Definition probe (cfg : api_config) : M json :=
  try_except
    (response <- http_get w (probe_call cfg) ;;
     ret (probe_success (elapsed_total_seconds response) response))
    (fun e => Some (ret (probe_error e))).

Fixpoint test_connectivity_loop (apis : list (string * api_config))
    (results : list (string * json)) : M (list (string * json)) :=
  match apis with
  | [] => ret results
  | (api_name, api_config) :: rest =>
      entry <- probe api_config ;;
      test_connectivity_loop rest (dict_set api_name entry results)
  end.

(** [test_connectivity()]. *)
Definition test_connectivity : M view_result :=
  results <- test_connectivity_loop APIS [] ;;
  now <- datetime_now_utc w ;;
  ret (RetResponse
         (jsonify
            [ ("connectivity_test", JDict results);
              ("timestamp", JStr (isoformat now)) ])).

End Diagnostics.

(** A view as Flask serves it. *)
Definition serve (view : M view_result) (st : state) : http_reply * state :=
  let (o, st') := view st in (make_response o, st').

(** ** More observations *)

(** The uploads of a trace that did not raise. *)
Definition stored_uploads (tr : list event) : list (string * string) :=
  flat_map (fun ev => match ev with
                      | EvUpload _ key text _ None => [(key, text)]
                      | _ => []
                      end) tr.

(** The [requests.get] calls of a trace with their outcomes. *)
Definition get_events (tr : list event) : list (get_call * outcome response) :=
  flat_map (fun ev => match ev with EvGet c r => [(c, r)] | _ => [] end) tr.

(** The characters of the file stamp. *)
Definition is_digit_or_underscore (c : ascii) : bool :=
  is_digit c || Ascii.eqb c "_".

(** Two instants of the same UTC millisecond. *)
Definition same_millisecond (t1 t2 : datetime) : Prop :=
  year t1 = year t2 /\ month t1 = month t2 /\ day t1 = day t2 /\
  hour t1 = hour t2 /\ minute t1 = minute t2 /\ second t1 = second t2 /\
  microsecond t1 / 1000 = microsecond t2 / 1000.

(** What follows the name in a key, for a four-digit year. *)
Definition key_tail (t : datetime) : string :=
  "/year=" +:+ decimal 4 (year t) +:+ "/month=" +:+ decimal 2 (month t) +:+
  "/day=" +:+ decimal 2 (day t) +:+ "/data_" +:+ stamp_form t +:+ ".json".

Section Sequences.

Context (GCS_BUCKET : string) (APIS : list (string * api_config))
        (json_dumps : json -> string) (w : world)
        (request_args : list (string * string)).

(** The state after [ingest_api] has been called for each name in turn,
    whatever each call returned or raised. *)
Fixpoint ingest_each (names : list string) (st : state) : state :=
  match names with
  | [] => st
  | api_name :: rest =>
      ingest_each rest
        (snd (ingest_api GCS_BUCKET APIS json_dumps w request_args api_name st))
  end.

End Sequences.

(** ** More sample environments *)

Module MoreSamples.
Import Sample.

(** The service account may not write to the bucket: the upload raises
    [google.api_core.exceptions.Forbidden]. *)
Definition write_forbidden_error : exn :=
  {| exn_cls := GoogleAPIError;
     exn_str := "403 caller does not have storage.objects.create access" |}.

Definition write_forbidden : world :=
  {| requests_get := fun _ _ => Returned (ok_response (Returned (JDict [("a", JInt 1)])));
     utc_now := fun _ => instant;
     upload_from_string := fun _ _ _ _ _ => Some write_forbidden_error |}.

(** The upstream answers 203 with the document [[1, 2, 3]]. *)
Definition non_authoritative_response : response :=
  {| status_code := 203; reason := "Non-Authoritative Information";
     url := "https://httpbin.org/json";
     json_body := Returned (JList [JInt 1; JInt 2; JInt 3]) |}.

Definition non_authoritative : world :=
  {| requests_get := fun _ _ => Returned non_authoritative_response;
     utc_now := fun _ => instant;
     upload_from_string := fun _ _ _ _ _ => None |}.

(** The upstream answers 300 with a JSON list of choices and no
    [Location] header, so that [requests] follows no redirect and returns
    this response. *)
Definition multiple_choices_response : response :=
  {| status_code := 300; reason := "Multiple Choices";
     url := "https://httpbin.org/json";
     json_body := Returned (JList [JStr "/json.v1"; JStr "/json.v2"]) |}.

Definition multiple_choices : world :=
  {| requests_get := fun _ _ => Returned multiple_choices_response;
     utc_now := fun _ => instant;
     upload_from_string := fun _ _ _ _ _ => None |}.

(** [/ingest/httpbin] served twice in a row in the environment [w]. *)
Definition ingest_httpbin_twice (w : world) (args : list (string * string))
    : (http_reply * state) * (http_reply * state) :=
  let first := ingest_httpbin w args in
  (first, route_ingest bucket POSTMAN_APIS json_dumps w args "httpbin" (snd first)).

(** 2024-03-07 09:05:01.004999 UTC, in the millisecond of [instant]. *)
Definition later_in_the_millisecond : datetime :=
  {| year := 2024; month := 3; day := 7;
     hour := 9; minute := 5; second := 1; microsecond := 4999 |}.

End MoreSamples.

(** * Properties *)

(** ** Strings and decimal formatting *)

Module PyStrFacts.
Import PyStr.

Lemma app_nil_l (s : string) : "" +:+ s = s.
Proof. reflexivity. Qed.

Lemma app_cons (c : ascii) (s r : string) : String c s +:+ r = String c (s +:+ r).
Proof. reflexivity. Qed.

Lemma length_app (s1 s2 : string) :
  String.length (s1 +:+ s2) = (String.length s1 + String.length s2)%nat.
Proof.
  induction s1 as [|c s1 IH]; [reflexivity |].
  rewrite app_cons. simpl. now rewrite IH.
Qed.

Lemma app_assoc (s1 s2 s3 : string) : (s1 +:+ s2) +:+ s3 = s1 +:+ (s2 +:+ s3).
Proof.
  induction s1 as [|c s1 IH]; [reflexivity |].
  rewrite !app_cons. now rewrite IH.
Qed.

Lemma app_empty_r (s : string) : s +:+ "" = s.
Proof.
  induction s as [|c s IH]; [reflexivity |].
  rewrite app_cons. now rewrite IH.
Qed.

Lemma take_app_exact (s r : string) : take (String.length s) (s +:+ r) = s.
Proof.
  induction s as [|c s IH].
  - rewrite app_nil_l. now destruct r.
  - rewrite app_cons. simpl. now rewrite IH.
Qed.

(** Dropping the last [length r] characters of [s ++ r] leaves [s]. *)
Lemma drop_last_app (s r : string) : drop_last (String.length r) (s +:+ r) = s.
Proof.
  unfold drop_last. rewrite length_app.
  replace (String.length s + String.length r - String.length r)%nat
    with (String.length s) by lia.
  apply take_app_exact.
Qed.

Lemma zeros_snoc (n : nat) : zeros n +:+ "0" = zeros (S n).
Proof.
  induction n as [|n IH]; [reflexivity |].
  change (zeros (S n)) with (String "0" (zeros n)) at 1.
  rewrite app_cons, IH. reflexivity.
Qed.

Lemma all_chars_app (p : ascii -> bool) (s1 s2 : string) :
  all_chars p (s1 +:+ s2) = all_chars p s1 && all_chars p s2.
Proof.
  induction s1 as [|c s1 IH]; [reflexivity |].
  rewrite app_cons. simpl. rewrite IH. now rewrite andb_assoc.
Qed.

(** *** [fixed_digits] *)

Lemma digit_is_digit (d : N) : (d < 10)%N -> is_digit (digit d) = true.
Proof.
  intros H.
  assert (Hd : In d [0; 1; 2; 3; 4; 5; 6; 7; 8; 9]%N).
  { simpl. lia. }
  simpl in Hd.
  repeat (destruct Hd as [<- | Hd]; [reflexivity |]); contradiction.
Qed.

Lemma fixed_digits_length (w : nat) (n : N) : String.length (fixed_digits w n) = w.
Proof.
  revert n; induction w as [|w IH]; intros n; simpl; [reflexivity |].
  rewrite length_app, IH. simpl. lia.
Qed.

Lemma fixed_digits_all_digits (w : nat) (n : N) :
  all_chars is_digit (fixed_digits w n) = true.
Proof.
  revert n; induction w as [|w IH]; intros n; simpl; [reflexivity |].
  rewrite all_chars_app, IH. simpl.
  rewrite digit_is_digit; [reflexivity |].
  apply N.mod_upper_bound. discriminate.
Qed.

Lemma fixed_digits_zero (w : nat) : fixed_digits w 0 = zeros w.
Proof.
  induction w as [|w IH]; [reflexivity |].
  change (fixed_digits (S w) 0) with (fixed_digits w 0 +:+ "0").
  rewrite IH. apply zeros_snoc.
Qed.

(** In front of the three lowest digits are the digits of the number
    divided by 1000. *)
Lemma fixed_digits_split3 (w : nat) (n : N) :
  exists low : string,
    String.length low = 3%nat /\
    fixed_digits (3 + w) n = fixed_digits w (n / 1000) +:+ low.
Proof.
  exists (String (digit (n / 10 / 10 mod 10))
            (String (digit (n / 10 mod 10)) (String (digit (n mod 10)) ""))).
  split; [reflexivity |].
  change (fixed_digits (3 + w) n)
    with (((fixed_digits w (n / 10 / 10 / 10)
            +:+ String (digit (n / 10 / 10 mod 10)) "")
           +:+ String (digit (n / 10 mod 10)) "")
          +:+ String (digit (n mod 10)) "").
  rewrite !app_assoc, !app_cons, !app_nil_l.
  rewrite !N.Div0.div_div. reflexivity.
Qed.

(** *** [str_N] and [format_0d] *)

Lemma digits_from_acc (fuel : nat) (n : N) (acc : string) :
  digits_from fuel n acc = digits_from fuel n "" +:+ acc.
Proof.
  revert n acc; induction fuel as [|fuel IH]; intros n acc; simpl; [reflexivity |].
  destruct (n / 10 =? 0)%N; [reflexivity |].
  rewrite IH, (IH _ (String _ "")), app_assoc. reflexivity.
Qed.

Lemma size_nat_gt (n : N) : (n < 2 ^ N.of_nat (N.size_nat n))%N.
Proof.
  destruct n as [|p]; [reflexivity |].
  simpl N.size_nat.
  induction p as [p IH|p IH|]; simpl Pos.size_nat;
    rewrite ?Nat2N.inj_succ, ?N.pow_succ_r'; lia.
Qed.

(** With enough fuel, the digits of [n < 10^w], padded with zeros on the
    left, are its [w]-digit form. *)
Lemma digits_from_fixed (w : nat) :
  forall (fuel : nat) (n : N),
    (n < 10 ^ N.of_nat (S w))%N -> (n < 2 ^ N.of_nat (S fuel))%N ->
    (String.length (digits_from (S fuel) n "") <= S w)%nat /\
    zeros (S w - String.length (digits_from (S fuel) n "")) +:+ digits_from (S fuel) n ""
    = fixed_digits (S w) n.
Proof.
  induction w as [|w IH]; intros fuel n Hw Hf.
  - change (10 ^ N.of_nat 1)%N with 10%N in Hw.
    simpl digits_from. rewrite N.div_small by exact Hw. simpl.
    split; [lia | reflexivity].
  - simpl digits_from.
    destruct (N.eqb_spec (n / 10) 0) as [E | E].
    + simpl String.length. split; [lia |].
      change (fixed_digits (S (S w)) n)
        with (fixed_digits (S w) (n / 10) +:+ String (digit (n mod 10)) "").
      rewrite E, fixed_digits_zero. reflexivity.
    + destruct fuel as [|fuel].
      { exfalso. apply E. apply N.div_small. change (2 ^ N.of_nat 1)%N with 2%N in Hf. lia. }
      rewrite digits_from_acc.
      destruct (IH fuel (n / 10)%N) as [Hlen Heq].
      * apply N.Div0.div_lt_upper_bound.
        rewrite Nat2N.inj_succ, N.pow_succ_r' in Hw. exact Hw.
      * apply N.Div0.div_lt_upper_bound.
        rewrite (Nat2N.inj_succ (S fuel)), N.pow_succ_r' in Hf. lia.
      * rewrite length_app.
        change (String.length (String (digit (n mod 10)) "")) with 1%nat.
        split; [lia |].
        replace (S (S w) - (String.length (digits_from (S fuel) (n / 10) "") + 1))%nat
          with (S w - String.length (digits_from (S fuel) (n / 10) ""))%nat by lia.
        rewrite <- app_assoc, Heq. reflexivity.
Qed.

Lemma str_N_fixed (w : nat) (n : N) :
  (n < 10 ^ N.of_nat (S w))%N ->
  zeros (S w - String.length (str_N n)) +:+ str_N n = fixed_digits (S w) n.
Proof.
  intros H. unfold str_N.
  apply digits_from_fixed; [exact H |].
  rewrite Nat2N.inj_succ, N.pow_succ_r'. pose proof (size_nat_gt n). lia.
Qed.

(** [{z:0<w>d}] of a non-negative [z] below [10^w] is [z] on exactly [w]
    digits. *)
Lemma format_0d_decimal (w : nat) (z : Z) :
  0 <= z < 10 ^ Z.of_nat (S w) -> format_0d (S w) z = decimal (S w) z.
Proof.
  intros [H0 H1]. unfold format_0d, decimal.
  destruct (Z.ltb_spec z 0) as [Hneg | _]; [lia |].
  replace (Z.abs_N z) with (Z.to_N z) by (destruct z; [reflexivity | reflexivity | lia]).
  change (String.length "") with 0%nat. rewrite Nat.sub_0_r.
  change ("" +:+ ?s) with s.
  apply str_N_fixed.
  apply N2Z.inj_lt. rewrite Z2N.id by exact H0.
  rewrite N2Z.inj_pow, nat_N_Z. exact H1.
Qed.

Lemma digit_zero_inv (d : N) : (d < 10)%N -> digit d = "0"%char -> d = 0%N.
Proof.
  intros H.
  assert (Hd : In d [0; 1; 2; 3; 4; 5; 6; 7; 8; 9]%N).
  { simpl. lia. }
  simpl in Hd.
  repeat (destruct Hd as [<- | Hd]; [first [reflexivity | discriminate] |]); contradiction.
Qed.

(** A number of four digits needs no padding. *)
Lemma str_N_four_digits (n : N) :
  (1000 <= n < 10000)%N -> str_N n = fixed_digits 4 n.
Proof.
  intros Hn.
  assert (Hpow : (n < 10 ^ N.of_nat 4)%N) by (change (10 ^ N.of_nat 4)%N with 10000%N; lia).
  pose proof (str_N_fixed 3 n Hpow) as Hfixed.
  destruct (4 - String.length (str_N n))%nat as [|k]; [exact Hfixed |].
  exfalso.
  change (fixed_digits 4 n)
    with ((((String (digit (n / 10 / 10 / 10 mod 10)) ""
             +:+ String (digit (n / 10 / 10 mod 10)) "")
            +:+ String (digit (n / 10 mod 10)) "")
           +:+ String (digit (n mod 10)) "")) in Hfixed.
  change (zeros (S k)) with (String "0" (zeros k)) in Hfixed.
  rewrite !app_cons in Hfixed. injection Hfixed as Hhead _.
  symmetry in Hhead. apply digit_zero_inv in Hhead.
  - rewrite !N.Div0.div_div in Hhead. change (10 * (10 * 10))%N with 1000%N in Hhead.
    assert (1 <= n / 1000 < 10)%N.
    { split; [apply N.div_le_lower_bound; lia | apply N.Div0.div_lt_upper_bound; lia]. }
    rewrite N.mod_small in Hhead by lia. lia.
  - apply N.mod_upper_bound. discriminate.
Qed.

End PyStrFacts.

(** ** Cancellation in strings and digits *)

Module PyStrInj.
Import PyStr PyStrFacts.

Lemma app_inv_head (s r1 r2 : string) : s +:+ r1 = s +:+ r2 -> r1 = r2.
Proof.
  induction s as [|c s IH]; [now rewrite !app_nil_l |].
  rewrite !app_cons. intros [= H]. now apply IH.
Qed.

(** Two concatenations with heads of the same length are equal part by
    part. *)
Lemma app_inj_length_l (s1 s2 r1 r2 : string) :
  String.length s1 = String.length s2 ->
  s1 +:+ r1 = s2 +:+ r2 -> s1 = s2 /\ r1 = r2.
Proof.
  revert s2. induction s1 as [|c s1 IH]; intros [|c2 s2] Hlen; try discriminate Hlen.
  - rewrite !app_nil_l. auto.
  - rewrite !app_cons. intros [= -> H].
    simpl in Hlen. destruct (IH s2) as [-> ->]; [lia | exact H | auto].
Qed.

Lemma app_inj_length_r (s1 s2 r1 r2 : string) :
  String.length r1 = String.length r2 ->
  s1 +:+ r1 = s2 +:+ r2 -> s1 = s2 /\ r1 = r2.
Proof.
  intros Hlen Heq. apply app_inj_length_l; [| exact Heq].
  apply (f_equal String.length) in Heq. rewrite !length_app in Heq. lia.
Qed.

Lemma digit_code (d : N) : (d < 10)%N -> N_of_ascii (digit d) = (48 + d)%N.
Proof. intros H. unfold digit. apply N_ascii_embedding. lia. Qed.

Lemma digit_inj (d1 d2 : N) : (d1 < 10)%N -> (d2 < 10)%N -> digit d1 = digit d2 -> d1 = d2.
Proof.
  intros H1 H2 Heq. apply (f_equal N_of_ascii) in Heq.
  rewrite !digit_code in Heq by assumption. lia.
Qed.

(** Below [10^w], a number is determined by its [w] digits. *)
Lemma fixed_digits_inj (w : nat) :
  forall n m : N,
    (n < 10 ^ N.of_nat w)%N -> (m < 10 ^ N.of_nat w)%N ->
    fixed_digits w n = fixed_digits w m -> n = m.
Proof.
  induction w as [|w IH]; intros n m Hn Hm Heq.
  - change (10 ^ N.of_nat 0)%N with 1%N in Hn, Hm. lia.
  - rewrite Nat2N.inj_succ, N.pow_succ_r' in Hn, Hm.
    change (fixed_digits (S w) n)
      with (fixed_digits w (n / 10) +:+ String (digit (n mod 10)) "") in Heq.
    change (fixed_digits (S w) m)
      with (fixed_digits w (m / 10) +:+ String (digit (m mod 10)) "") in Heq.
    apply app_inj_length_l in Heq; [| now rewrite !fixed_digits_length].
    destruct Heq as [Hhigh Hlow]. injection Hlow as Hlow.
    apply digit_inj in Hlow; try (apply N.mod_upper_bound; discriminate).
    apply IH in Hhigh; try (apply N.Div0.div_lt_upper_bound; assumption).
    rewrite (N.div_mod n 10), (N.div_mod m 10) by discriminate. now rewrite Hhigh, Hlow.
Qed.

Lemma decimal_inj (w : nat) (a b : Z) :
  0 <= a < 10 ^ Z.of_nat w -> 0 <= b < 10 ^ Z.of_nat w ->
  decimal w a = decimal w b -> a = b.
Proof.
  intros Ha Hb Heq. unfold decimal in Heq.
  apply fixed_digits_inj in Heq.
  - apply Z2N.inj; lia.
  - apply N2Z.inj_lt. rewrite Z2N.id, N2Z.inj_pow, nat_N_Z by lia. simpl. lia.
  - apply N2Z.inj_lt. rewrite Z2N.id, N2Z.inj_pow, nat_N_Z by lia. simpl. lia.
Qed.

(** *** The value of a string of digits *)

Lemma digits_value_from_app (acc : N) (s1 s2 : string) :
  digits_value_from acc (s1 +:+ s2) =
  match digits_value_from acc s1 with
  | Some a => digits_value_from a s2
  | None => None
  end.
Proof.
  revert acc. induction s1 as [|c s1 IH]; intros acc; [reflexivity |].
  rewrite app_cons. simpl.
  destruct ((48 <=? N_of_ascii c)%N && (N_of_ascii c <=? 57)%N); [apply IH | reflexivity].
Qed.

Lemma digits_value_from_digit (acc d : N) :
  (d < 10)%N ->
  digits_value_from acc (String (digit d) "") = Some (10 * acc + d)%N.
Proof.
  intros Hd. simpl. rewrite (digit_code d Hd).
  replace ((48 <=? 48 + d)%N && (48 + d <=? 57)%N) with true.
  - f_equal. lia.
  - symmetry. apply andb_true_iff. split; apply N.leb_le; lia.
Qed.

(** The [w] digits of a number below [10^w] denote that number. *)
Lemma digits_value_from_fixed (w : nat) :
  forall n acc : N,
    (n < 10 ^ N.of_nat w)%N ->
    digits_value_from acc (fixed_digits w n) = Some (acc * 10 ^ N.of_nat w + n)%N.
Proof.
  induction w as [|w IH]; intros n acc Hn.
  - change (10 ^ N.of_nat 0)%N with 1%N in *. simpl. f_equal. lia.
  - rewrite Nat2N.inj_succ, N.pow_succ_r' in *.
    change (fixed_digits (S w) n)
      with (fixed_digits w (n / 10) +:+ String (digit (n mod 10)) "").
    rewrite digits_value_from_app, IH by (apply N.Div0.div_lt_upper_bound; exact Hn).
    rewrite digits_value_from_digit by (apply N.mod_upper_bound; discriminate).
    f_equal. rewrite (N.div_mod n 10) at 3 by discriminate. lia.
Qed.

Lemma digits_value_decimal (w : nat) (z : Z) :
  0 <= z < 10 ^ Z.of_nat w -> digits_value (decimal w z) = Some z.
Proof.
  intros Hz. unfold digits_value, decimal.
  rewrite digits_value_from_fixed.
  - simpl. f_equal. rewrite N.mul_0_l, N.add_0_l. apply Z2N.id. lia.
  - apply N2Z.inj_lt. rewrite Z2N.id, N2Z.inj_pow, nat_N_Z by lia. simpl. lia.
Qed.

End PyStrInj.

(** ** Timestamps and object keys *)

Module TimeFacts.
Import PyStr PyStrFacts.

Lemma decimal_length (w : nat) (z : Z) : String.length (decimal w z) = w.
Proof. apply fixed_digits_length. Qed.

Lemma format_0d_2 (z : Z) : 0 <= z < 100 -> format_0d 2 z = decimal 2 z.
Proof. intros H. apply format_0d_decimal. change (10 ^ Z.of_nat 2) with 100. lia. Qed.

Lemma format_0d_4 (z : Z) : 0 <= z < 10000 -> format_0d 4 z = decimal 4 z.
Proof. intros H. apply format_0d_decimal. change (10 ^ Z.of_nat 4) with 10000. lia. Qed.

Lemma format_0d_6 (z : Z) : 0 <= z < 1000000 -> format_0d 6 z = decimal 6 z.
Proof. intros H. apply format_0d_decimal. change (10 ^ Z.of_nat 6) with 1000000. lia. Qed.

(** [str] of a four-digit year is [YYYY]. *)
Lemma str_year (y : Z) : 1000 <= y <= 9999 -> str y = decimal 4 y.
Proof.
  intros H. unfold str, decimal.
  destruct (Z.ltb_spec y 0) as [Hneg | _]; [lia |].
  replace (Z.abs_N y) with (Z.to_N y) by (destruct y; [reflexivity | reflexivity | lia]).
  apply str_N_four_digits. lia.
Qed.

(** [%f] without its last three digits is the millisecond, on three
    digits. *)
Lemma micro_drop_last (prefix : string) (us : Z) :
  0 <= us ->
  drop_last 3 (prefix +:+ decimal 6 us) = prefix +:+ decimal 3 (us / 1000).
Proof.
  intros Hus. unfold decimal.
  destruct (fixed_digits_split3 3 (Z.to_N us)) as (low & Hlow & Hsplit).
  change (3 + 3)%nat with 6%nat in Hsplit. rewrite Hsplit.
  rewrite <- !app_assoc, <- Hlow, drop_last_app.
  rewrite Z2N.inj_div by lia. reflexivity.
Qed.

(** The format string of [ingest_api], directive by directive. *)
Lemma strftime_stamp (t : datetime) :
  strftime "%Y%m%d_%H%M%S_%f" t =
  str (year t) +:+ format_0d 2 (month t) +:+ format_0d 2 (day t) +:+ "_" +:+
  format_0d 2 (hour t) +:+ format_0d 2 (minute t) +:+ format_0d 2 (second t) +:+ "_" +:+
  format_0d 6 (microsecond t).
Proof.
  cbv [strftime strftime_directive Ascii.eqb Bool.eqb].
  rewrite !app_cons, !app_nil_l, app_empty_r. reflexivity.
Qed.

(** The file stamp of any valid datetime: the year as [str] prints it,
    then fields of fixed width, the last one being the millisecond. *)
Lemma timestamp_str_fields (t : datetime) :
  valid_datetime t ->
  timestamp_str t =
  str (year t) +:+ decimal 2 (month t) +:+ decimal 2 (day t) +:+ "_" +:+
  decimal 2 (hour t) +:+ decimal 2 (minute t) +:+ decimal 2 (second t) +:+ "_" +:+
  decimal 3 (microsecond t / 1000).
Proof.
  intros (Hy & Hm & Hd & HH & HM & HS & Hus).
  unfold timestamp_str. rewrite strftime_stamp.
  rewrite !format_0d_2, format_0d_6 by lia.
  rewrite <- !app_assoc.
  rewrite micro_drop_last by lia. now rewrite !app_assoc.
Qed.

Lemma timestamp_str_form (t : datetime) :
  four_digit_year t -> timestamp_str t = stamp_form t.
Proof.
  intros [Hv Hyear]. rewrite (timestamp_str_fields t Hv). unfold stamp_form.
  rewrite str_year; [reflexivity |]. destruct Hv as [Hy _]. lia.
Qed.

Lemma filename_form (api_name : string) (t : datetime) :
  four_digit_year t -> filename api_name t = object_key_form api_name t.
Proof.
  intros Hf. unfold filename, partition_path, object_key_form.
  rewrite (timestamp_str_form t Hf).
  destruct Hf as [(Hy & Hm & Hd & _) _].
  rewrite !format_0d_2 by lia.
  rewrite !app_assoc. reflexivity.
Qed.

(** *** [isoformat] and the trailing [Z] *)

Lemma is_digit_not_plus (c : ascii) : is_digit c = true -> not_plus c = true.
Proof.
  unfold not_plus. destruct (Ascii.eqb_spec c "+") as [-> | _]; [discriminate | reflexivity].
Qed.

Lemma all_chars_impl (p q : ascii -> bool) (s : string) :
  (forall c, p c = true -> q c = true) -> all_chars p s = true -> all_chars q s = true.
Proof.
  intros Hpq. induction s as [|c s IH]; simpl; [reflexivity |].
  intros [Hc Hs]%andb_prop. rewrite (Hpq c Hc). now apply IH.
Qed.

Lemma decimal_not_plus (w : nat) (z : Z) : all_chars not_plus (decimal w z) = true.
Proof.
  apply (all_chars_impl is_digit); [apply is_digit_not_plus |].
  apply fixed_digits_all_digits.
Qed.

(** [replace] rewrites a final [+00:00] when no [+] comes before it. *)
Lemma replace_utc_offset (s : string) :
  all_chars not_plus s = true ->
  replace "+00:00" "Z" (s +:+ "+00:00") = s +:+ "Z".
Proof.
  unfold replace. induction s as [|c s IH]; [reflexivity |].
  simpl all_chars. intros [Hc Hs]%andb_prop.
  rewrite !app_cons.
  change (replace_from 0 "+00:00" "Z" (String c (s +:+ "+00:00")))
    with (if startswith "+00:00" (String c (s +:+ "+00:00"))
          then "Z" +:+ replace_from 5 "+00:00" "Z" (s +:+ "+00:00")
          else String c (replace_from 0 "+00:00" "Z" (s +:+ "+00:00"))).
  change (startswith "+00:00" (String c (s +:+ "+00:00")))
    with (if Ascii.eqb "+" c then startswith "00:00" (s +:+ "+00:00") else false).
  unfold not_plus in Hc. rewrite Ascii.eqb_sym in Hc.
  destruct (Ascii.eqb "+" c); [discriminate |].
  now rewrite (IH Hs).
Qed.

Lemma ingestion_timestamp_form (t : datetime) :
  valid_datetime t ->
  ingestion_timestamp t = iso_date_form t +:+ "T" +:+ iso_time_form t +:+ "Z".
Proof.
  intros (Hy & Hm & Hd & HH & HM & HS & Hus).
  unfold ingestion_timestamp, isoformat, iso_date_form, iso_time_form.
  rewrite format_0d_4, !format_0d_2, format_0d_6 by lia.
  rewrite <- !app_assoc. rewrite replace_utc_offset; [reflexivity |].
  rewrite !all_chars_app, !decimal_not_plus.
  destruct (microsecond t =? 0); [reflexivity |].
  rewrite all_chars_app, decimal_not_plus. reflexivity.
Qed.

Lemma iso_date_form_length (t : datetime) : String.length (iso_date_form t) = 10%nat.
Proof.
  unfold iso_date_form. rewrite !length_app, !decimal_length. reflexivity.
Qed.

(** The first ten characters of the ingestion timestamp are the calendar
    date. *)
Lemma ingestion_timestamp_date (t : datetime) :
  valid_datetime t -> take 10 (ingestion_timestamp t) = iso_date_form t.
Proof.
  intros Hv. rewrite (ingestion_timestamp_form t Hv).
  rewrite <- (iso_date_form_length t). apply take_app_exact.
Qed.

End TimeFacts.

(** ** When two object keys coincide *)

Module KeyFacts.
Import PyStr PyStrFacts PyStrInj TimeFacts.

Lemma is_digit_is_stamp_char (c : ascii) :
  is_digit c = true -> is_digit_or_underscore c = true.
Proof. unfold is_digit_or_underscore. now intros ->. Qed.

Lemma decimal_stamp_chars (w : nat) (z : Z) :
  all_chars is_digit_or_underscore (decimal w z) = true.
Proof.
  apply (all_chars_impl is_digit); [apply is_digit_is_stamp_char |].
  apply fixed_digits_all_digits.
Qed.

Lemma stamp_form_length (t : datetime) : String.length (stamp_form t) = 19%nat.
Proof. unfold stamp_form. rewrite !length_app, !decimal_length. reflexivity. Qed.

Lemma millisecond_range (t : datetime) :
  valid_datetime t -> 0 <= microsecond t / 1000 < 1000.
Proof.
  intros (_ & _ & _ & _ & _ & _ & Hus).
  split; [apply Z.div_pos; lia | apply Z.div_lt_upper_bound; lia].
Qed.

(** The file stamps of two instants are equal exactly when the instants
    fall in the same millisecond. *)
Lemma stamp_form_inj (t1 t2 : datetime) :
  valid_datetime t1 -> valid_datetime t2 ->
  stamp_form t1 = stamp_form t2 -> same_millisecond t1 t2.
Proof.
  intros Hv1 Hv2 Heq.
  pose proof (millisecond_range t1 Hv1) as Hms1.
  pose proof (millisecond_range t2 Hv2) as Hms2.
  destruct Hv1 as (Hy1 & Hm1 & Hd1 & HH1 & HM1 & HS1 & Hus1).
  destruct Hv2 as (Hy2 & Hm2 & Hd2 & HH2 & HM2 & HS2 & Hus2).
  unfold stamp_form in Heq.
  apply app_inj_length_l in Heq as [Ey Heq]; [| now rewrite !decimal_length].
  apply app_inj_length_l in Heq as [Em Heq]; [| now rewrite !decimal_length].
  apply app_inj_length_l in Heq as [Ed Heq]; [| now rewrite !decimal_length].
  apply app_inv_head in Heq.
  apply app_inj_length_l in Heq as [EH Heq]; [| now rewrite !decimal_length].
  apply app_inj_length_l in Heq as [EM Heq]; [| now rewrite !decimal_length].
  apply app_inj_length_l in Heq as [ES Heq]; [| now rewrite !decimal_length].
  apply app_inv_head in Heq.
  unfold same_millisecond. split_and!.
  - apply (decimal_inj 4); [change (10 ^ Z.of_nat 4) with 10000; lia .. | exact Ey].
  - apply (decimal_inj 2); [change (10 ^ Z.of_nat 2) with 100; lia .. | exact Em].
  - apply (decimal_inj 2); [change (10 ^ Z.of_nat 2) with 100; lia .. | exact Ed].
  - apply (decimal_inj 2); [change (10 ^ Z.of_nat 2) with 100; lia .. | exact EH].
  - apply (decimal_inj 2); [change (10 ^ Z.of_nat 2) with 100; lia .. | exact EM].
  - apply (decimal_inj 2); [change (10 ^ Z.of_nat 2) with 100; lia .. | exact ES].
  - apply (decimal_inj 3); [change (10 ^ Z.of_nat 3) with 1000; lia .. | exact Heq].
Qed.

Lemma key_tail_length (t : datetime) : String.length (key_tail t) = 56%nat.
Proof.
  unfold key_tail. rewrite !length_app, stamp_form_length, !decimal_length. reflexivity.
Qed.

Lemma filename_key_tail (api_name : string) (t : datetime) :
  four_digit_year t -> filename api_name t = "api_name=" +:+ api_name +:+ key_tail t.
Proof.
  intros Hf. rewrite (filename_form api_name t Hf). destruct Hf as [Hv Hy].
  unfold object_key_form, key_tail.
  rewrite str_year; [reflexivity |]. destruct Hv as [Hy' _]. lia.
Qed.

Lemma filename_inj (n1 n2 : string) (t1 t2 : datetime) :
  four_digit_year t1 -> four_digit_year t2 ->
  filename n1 t1 = filename n2 t2 -> n1 = n2 /\ same_millisecond t1 t2.
Proof.
  intros H1 H2 Heq.
  rewrite (filename_key_tail n1 t1 H1), (filename_key_tail n2 t2 H2) in Heq.
  apply app_inv_head in Heq.
  apply app_inj_length_r in Heq as [En Heq]; [| now rewrite !key_tail_length].
  split; [exact En |].
  unfold key_tail in Heq.
  apply app_inv_head in Heq.
  apply app_inj_length_l in Heq as [_ Heq]; [| now rewrite !decimal_length].
  apply app_inv_head in Heq.
  apply app_inj_length_l in Heq as [_ Heq]; [| now rewrite !decimal_length].
  apply app_inv_head in Heq.
  apply app_inj_length_l in Heq as [_ Heq]; [| now rewrite !decimal_length].
  apply app_inv_head in Heq.
  apply app_inj_length_l in Heq as [Hstamp _]; [| now rewrite !stamp_form_length].
  destruct H1 as [Hv1 _], H2 as [Hv2 _]. now apply stamp_form_inj.
Qed.

Lemma filename_same_millisecond (api_name : string) (t1 t2 : datetime) :
  valid_datetime t1 -> valid_datetime t2 ->
  same_millisecond t1 t2 -> filename api_name t1 = filename api_name t2.
Proof.
  intros Hv1 Hv2 (Ey & Em & Ed & EH & EM & ES & Ems).
  unfold filename, partition_path.
  rewrite (timestamp_str_fields t1 Hv1), (timestamp_str_fields t2 Hv2).
  now rewrite Ey, Em, Ed, EH, EM, ES, Ems.
Qed.

(** [isoformat] keeps the offset that [ingest_api] turns into [Z]. *)
Lemma isoformat_form (t : datetime) :
  valid_datetime t ->
  isoformat t = iso_date_form t +:+ "T" +:+ iso_time_form t +:+ "+00:00".
Proof.
  intros (Hy & Hm & Hd & HH & HM & HS & Hus).
  unfold isoformat, iso_date_form, iso_time_form.
  rewrite format_0d_4, !format_0d_2, format_0d_6 by lia.
  now rewrite <- !app_assoc.
Qed.


(** X10. For instants with four-digit years, two object keys are equal
    exactly when they are keys of the same API name for instants of the same
    UTC millisecond: microseconds beyond the millisecond do not tell two
    keys apart. *)
Theorem keys_coincide_within_a_millisecond (n1 n2 : string) (t1 t2 : datetime) :
  four_digit_year t1 -> four_digit_year t2 ->
  (filename n1 t1 = filename n2 t2 <-> n1 = n2 /\ same_millisecond t1 t2).
Proof.
  intros H1 H2. split.
  - now apply filename_inj.
  - intros [-> Hsame]. destruct H1 as [Hv1 _], H2 as [Hv2 _].
    now apply filename_same_millisecond.
Qed.

End KeyFacts.

(** ** Every call of [ingest_api] follows one of the five paths *)

Section RunFacts.

Context (GCS_BUCKET : string) (APIS : list (string * api_config))
        (json_dumps : json -> string) (w : world)
        (request_args : list (string * string)).

#[local] Abbreviation ingest := (ingest_api GCS_BUCKET APIS json_dumps w request_args).
#[local] Abbreviation run := (ingest_run GCS_BUCKET APIS json_dumps w request_args).
#[local] Abbreviation answer := (upstream_answer w request_args).

(** Unfold the monad down to the oracle calls. *)
Ltac step_handler :=
  cbv [bind try_except print http_get raise_for_status response_json
       datetime_now_utc blob_upload ret raise log];
  cbn [trace store fst snd].

Lemma ingest_api_not_found (api_name : string) (st : state) :
  apis_get api_name APIS = None ->
  ingest api_name st =
  (Returned (RetTuple (jsonify (not_found_body APIS api_name)) 404), st).
Proof. intros H. unfold ingest_api. rewrite H. reflexivity. Qed.

Lemma ingest_api_fetch_error (api_name : string) (st : state) (cfg : api_config) (e : exn) :
  apis_get api_name APIS = Some cfg ->
  fetch_result (answer st cfg) = inl e ->
  ingest api_name st =
  (Returned (fetch_error_reply api_name cfg e),
   {| trace := after_get w request_args st cfg ++ [fetch_error_line api_name e];
      store := store st |}).
Proof.
  intros Hcfg Hf. unfold ingest_api. rewrite Hcfg.
  unfold fetch_result, upstream_answer, upstream_call, attempt_line in Hf.
  unfold fetch_error_reply, fetch_error_line, after_get, upstream_answer, upstream_call,
    attempt_line.
  step_handler.
  destruct (requests_get w _ _) as [r | e0] eqn:Hget.
  - destruct (status_error r) as [e1|] eqn:Hs.
    + injection Hf as <-. destruct (is_RequestException e1); reflexivity.
    + destruct (json_body r) as [data | e2] eqn:Hj; [discriminate |].
      injection Hf as <-. cbn [trace].
      destruct (is_RequestException e2); reflexivity.
  - injection Hf as <-. destruct (is_RequestException e0); reflexivity.
Qed.

(** After a successful fetch the handler is at the upload. *)
Lemma ingest_api_fetched (api_name : string) (st : state) (cfg : api_config)
    (r : response) (data : json) :
  apis_get api_name APIS = Some cfg ->
  fetch_result (answer st cfg) = inr (r, data) ->
  ingest api_name st =
  match upload_answer GCS_BUCKET json_dumps w request_args st cfg api_name r data with
  | None =>
      (Returned (RetResponse
                   (jsonify (success_body GCS_BUCKET api_name
                               (ingestion_instant w request_args st cfg api_name) data))),
       {| trace := before_upload w request_args st cfg api_name
                   ++ [upload_event GCS_BUCKET json_dumps w request_args st cfg api_name r data];
          store := <[filename api_name (ingestion_instant w request_args st cfg api_name) :=
                       stored_text json_dumps request_args api_name cfg r
                         (ingestion_instant w request_args st cfg api_name) data]>
                     (store st) |})
  | Some e =>
      if is_TypeError_or_ValueError e then
        (Returned (RetTuple (jsonify (serialization_failed_body e)) 500),
         {| trace := (before_upload w request_args st cfg api_name
                      ++ [upload_event GCS_BUCKET json_dumps w request_args st cfg api_name r data])
                     ++ [EvPrint ("JSON serialization error: " +:+ exn_str e)];
            store := store st |})
      else
        (Raised e,
         {| trace := before_upload w request_args st cfg api_name
                     ++ [upload_event GCS_BUCKET json_dumps w request_args st cfg api_name r data];
            store := store st |})
  end.
Proof.
  intros Hcfg Hf. unfold ingest_api. rewrite Hcfg.
  unfold fetch_result, upstream_answer, upstream_call, attempt_line in Hf.
  unfold upload_event, upload_answer, stored_text, before_upload, ingestion_instant,
    fetched_line, after_get, upstream_answer, upstream_call, attempt_line, success_body.
  step_handler.
  destruct (requests_get w _ _) as [r0 | e0] eqn:Hget; [| discriminate].
  destruct (status_error r0) as [e1|] eqn:Hs; [discriminate |].
  destruct (json_body r0) as [data0 | e2] eqn:Hj; [| discriminate].
  injection Hf as -> ->. cbn [trace store f_filename f_full_data f_data].
  destruct (upload_from_string w _ _ _ _ _) as [e|] eqn:Hup.
  - cbn [trace store]. destruct (is_TypeError_or_ValueError e); reflexivity.
  - reflexivity.
Qed.

Lemma ingest_api_run (api_name : string) (st : state) (o : outcome view_result) (st' : state) :
  ingest api_name st = (o, st') -> run api_name st o st'.
Proof.
  intros Hrun.
  destruct (apis_get api_name APIS) as [cfg|] eqn:Hcfg.
  2:{ rewrite (ingest_api_not_found _ _ Hcfg) in Hrun. injection Hrun as <- <-.
      now apply run_not_found. }
  destruct (fetch_result (answer st cfg)) as [e | [r data]] eqn:Hf.
  { rewrite (ingest_api_fetch_error _ _ _ _ Hcfg Hf) in Hrun. injection Hrun as <- <-.
    now apply run_fetch_error. }
  rewrite (ingest_api_fetched _ _ _ _ _ Hcfg Hf) in Hrun.
  destruct (upload_answer _ _ _ _ _ _ _ _ _) as [e|] eqn:Hup.
  - destruct (is_TypeError_or_ValueError e) eqn:He; injection Hrun as <- <-.
    + now apply (run_serialization_failed _ _ _ _ _ _ _ cfg r data e).
    + now apply (run_upload_raised _ _ _ _ _ _ _ cfg r data e).
  - injection Hrun as <- <-. now apply (run_stored _ _ _ _ _ _ _ cfg r data).
Qed.

End RunFacts.

(** ** The sample serializer has an inverse *)

Module SampleFacts.
Import Sample.

Lemma bits_pos_bits (p : positive) : bits_pos (pos_bits p) = p.
Proof. induction p as [p IH | p IH |]; simpl; congruence. Qed.

(** Induction on documents, with the hypothesis for every element of a
    list and every value of a dict. *)
Lemma json_nested_ind (P : json -> Prop) :
  P JNull ->
  (forall b, P (JBool b)) ->
  (forall n, P (JInt n)) ->
  (forall f, P (JFloat f)) ->
  (forall s, P (JStr s)) ->
  (forall items, Forall P items -> P (JList items)) ->
  (forall fields, Forall (fun kv => P (snd kv)) fields -> P (JDict fields)) ->
  forall v, P v.
Proof.
  intros HNull HBool HInt HFloat HStr HList HDict.
  fix IH 1. intros [| b | n | f | s | items | fields].
  - exact HNull.
  - apply HBool.
  - apply HInt.
  - apply HFloat.
  - apply HStr.
  - apply HList. induction items as [|v items IHitems]; constructor; [apply IH | exact IHitems].
  - apply HDict. induction fields as [|[k v] fields IHfields]; constructor;
      [apply IH | exact IHfields].
Qed.

Lemma of_to_tree (v : json) : of_tree (to_tree v) = v.
Proof.
  induction v as [| b | n | f | s | items IH | fields IH] using json_nested_ind;
    try reflexivity.
  - simpl. f_equal. rewrite map_map.
    induction IH as [|v items Hv _ IHitems]; simpl; [reflexivity |].
    now rewrite Hv, IHitems.
  - simpl. f_equal. rewrite map_map.
    induction IH as [|[k v] fields Hv _ IHfields]; simpl; [reflexivity |].
    simpl in Hv. now rewrite Hv, IHfields.
Qed.

Lemma loads_dumps (v : json) : json_loads (json_dumps v) = Some v.
Proof.
  unfold json_loads, json_dumps.
  now rewrite bits_pos_bits, decode_encode, of_to_tree.
Qed.

End SampleFacts.

(** * The claims about [/ingest/<api_name>] *)

Section IngestClaims.

Context (GCS_BUCKET : string) (APIS : list (string * api_config))
        (json_dumps : json -> string) (w : world)
        (request_args : list (string * string)).

#[local] Abbreviation ingest := (ingest_api GCS_BUCKET APIS json_dumps w request_args).
#[local] Abbreviation route := (route_ingest GCS_BUCKET APIS json_dumps w request_args).
#[local] Abbreviation run := (ingest_run GCS_BUCKET APIS json_dumps w request_args).
#[local] Abbreviation answer := (upstream_answer w request_args).
#[local] Abbreviation instant_of := (ingestion_instant w request_args).
#[local] Abbreviation call := (upstream_call request_args).

Lemma route_ingest_run (api_name : string) (st : state) (reply : http_reply) (st' : state) :
  route api_name st = (reply, st') ->
  exists o, run api_name st o st' /\ reply = make_response o.
Proof.
  unfold route_ingest. destruct (ingest api_name st) as [o st1] eqn:Hrun.
  intros [= <- <-]. exists o. split; [| reflexivity].
  now apply ingest_api_run.
Qed.

Lemma apis_get_None (api_name : string) :
  ~ In api_name (map fst APIS) -> apis_get api_name APIS = None.
Proof.
  induction APIS as [|[k cfg] rest IH]; simpl; [reflexivity |].
  intros Hnot. destruct (String.eqb_spec k api_name) as [-> | Hne].
  - exfalso. apply Hnot. now left.
  - apply IH. intros Hin. apply Hnot. now right.
Qed.

Lemma fetch_result_inr (o : outcome response) (r : response) (data : json) :
  fetch_result o = inr (r, data) ->
  o = Returned r /\ status_error r = None /\ json_body r = Returned data.
Proof.
  unfold fetch_result. destruct o as [r0 | e]; [| discriminate].
  destruct (status_error r0) eqn:Hs; [discriminate |].
  destruct (json_body r0) as [d | e] eqn:Hj; [| discriminate].
  intros [= <- <-]. repeat split; assumption.
Qed.

Lemma status_error_Some (r : response) :
  400 <= status_code r < 600 ->
  exists e, status_error r = Some e /\ is_RequestException e = true.
Proof.
  intros H. unfold status_error.
  destruct ((400 <=? status_code r) && (status_code r <? 500)) eqn:H4; [eauto |].
  destruct ((500 <=? status_code r) && (status_code r <? 600)) eqn:H5; [eauto |].
  exfalso. apply andb_false_iff in H4, H5. lia.
Qed.

Lemma status_error_None (r : response) :
  200 <= status_code r < 300 -> status_error r = None.
Proof.
  intros H. unfold status_error.
  destruct ((400 <=? status_code r) && (status_code r <? 500)) eqn:H4.
  { apply andb_true_iff in H4. lia. }
  destruct ((500 <=? status_code r) && (status_code r <? 600)) eqn:H5; [| reflexivity].
  apply andb_true_iff in H5. lia.
Qed.

(** A reply with status 200 comes from the path that stores the record. *)
Lemma route_ingest_200 (api_name : string) (st : state) (reply : http_reply) (st' : state) :
  route api_name st = (reply, st') ->
  http_status reply = 200 ->
  exists (cfg : api_config) (r : response) (data : json),
    apis_get api_name APIS = Some cfg /\
    answer st cfg = Returned r /\ status_error r = None /\ json_body r = Returned data /\
    upload_answer GCS_BUCKET json_dumps w request_args st cfg api_name r data = None /\
    http_json reply = Some (JDict (success_body GCS_BUCKET api_name (instant_of st cfg api_name) data)) /\
    trace st' =
      trace st ++ [ attempt_line cfg; EvGet (call cfg) (Returned r); fetched_line api_name;
                    EvNow (instant_of st cfg api_name);
                    EvUpload GCS_BUCKET (filename api_name (instant_of st cfg api_name))
                      (stored_text json_dumps request_args api_name cfg r
                         (instant_of st cfg api_name) data)
                      "application/json" None ] /\
    store st' =
      <[filename api_name (instant_of st cfg api_name) :=
          stored_text json_dumps request_args api_name cfg r (instant_of st cfg api_name) data]>
        (store st).
Proof.
  intros Hroute H200.
  destruct (route_ingest_run _ _ _ _ Hroute) as (o & Hrun & ->).
  destruct Hrun as [Hcfg | cfg e Hcfg Hf | cfg r data Hcfg Hf Hup
                    | cfg r data e Hcfg Hf Hup He | cfg r data e Hcfg Hf Hup He];
    simpl in H200; try discriminate.
  - unfold fetch_error_reply in H200. destruct (is_RequestException e); discriminate.
  - destruct (fetch_result_inr _ _ _ Hf) as (Hans & Hst & Hbody).
    exists cfg, r, data. repeat split; try assumption.
    + cbn [trace]. unfold before_upload, after_get, upload_event.
      rewrite Hup, Hans. rewrite <- !app_assoc. reflexivity.
Qed.

(** *** The object key (C1) and the single instant (C10) *)

(** C1. A successful ingestion stores its object under the key
    [api_name=<name>/year=<Y>/month=<MM>/day=<DD>/data_<YYYYMMDD_HHMMSS_mmm>.json].
    The instant [t] of the key is the one the UTC clock gives when it is
    read, once, right before the upload: [t = utc_now w before], [before]
    being the trace up to that read.  The segments are decimal numerals of
    the fields of [t]: [Y] is the year on four digits, [MM] and [DD] the
    month and the day on exactly two digits, and the file stamp repeats
    [Y], [MM], [DD], followed by the hour, minute and second of [t] on two
    digits each and by its milliseconds (microseconds divided by 1000) on
    exactly three digits.  The object is in the store under that key and
    the response names it in [file]. *)
Theorem stored_key_has_partitioned_form
    (api_name : string) (st : state) (reply : http_reply) (st' : state) :
  (forall h, four_digit_year (utc_now w h)) ->
  route api_name st = (reply, st') ->
  http_status reply = 200 ->
  exists (before : list event) (t : datetime) (key text : string)
         (Y MM DD hh mi ss mmm : string),
    t = utc_now w before /\
    trace st' =
      before ++ [ EvNow t; EvUpload GCS_BUCKET key text "application/json" None ] /\
    store st' !! key = Some text /\
    reply_field "file" reply = Some (JStr key) /\
    key = "api_name=" +:+ api_name +:+ "/year=" +:+ Y +:+ "/month=" +:+ MM +:+
          "/day=" +:+ DD +:+ "/data_" +:+ Y +:+ MM +:+ DD +:+ "_" +:+
          hh +:+ mi +:+ ss +:+ "_" +:+ mmm +:+ ".json" /\
    written_on 4 (year t) Y /\
    written_on 2 (month t) MM /\
    written_on 2 (day t) DD /\
    written_on 2 (hour t) hh /\
    written_on 2 (minute t) mi /\
    written_on 2 (second t) ss /\
    written_on 3 (microsecond t / 1000) mmm.
Proof.
  intros Hclock Hroute H200.
  destruct (route_ingest_200 _ _ _ _ Hroute H200)
    as (cfg & r & data & Hcfg & Hans & Hst & Hbody & Hup & Hjson & Htrace & Hstore).
  set (t := instant_of st cfg api_name) in *.
  assert (Ht : t = utc_now w (trace st ++ [attempt_line cfg; EvGet (call cfg) (Returned r);
                                           fetched_line api_name])).
  { unfold t, ingestion_instant, after_get. rewrite Hans, <- !app_assoc. reflexivity. }
  assert (Hf : four_digit_year t) by (rewrite Ht; apply Hclock).
  assert (Hkey : filename api_name t =
                 "api_name=" +:+ api_name +:+ "/year=" +:+ decimal 4 (year t) +:+
                 "/month=" +:+ decimal 2 (month t) +:+ "/day=" +:+ decimal 2 (day t) +:+
                 "/data_" +:+ decimal 4 (year t) +:+ decimal 2 (month t) +:+
                 decimal 2 (day t) +:+ "_" +:+ decimal 2 (hour t) +:+
                 decimal 2 (minute t) +:+ decimal 2 (second t) +:+ "_" +:+
                 decimal 3 (microsecond t / 1000) +:+ ".json").
  { rewrite (TimeFacts.filename_form api_name t Hf).
    unfold object_key_form, stamp_form.
    rewrite TimeFacts.str_year by (destruct Hf as [[Hy _] Hyear]; lia).
    rewrite <- !PyStrFacts.app_assoc. reflexivity. }
  destruct Hf as [(Hy & Hm & Hd & HH & HM & HS & Hus) Hyear].
  exists (trace st ++ [attempt_line cfg; EvGet (call cfg) (Returned r); fetched_line api_name]),
    t, (filename api_name t), (stored_text json_dumps request_args api_name cfg r t data),
    (decimal 4 (year t)), (decimal 2 (month t)), (decimal 2 (day t)),
    (decimal 2 (hour t)), (decimal 2 (minute t)), (decimal 2 (second t)),
    (decimal 3 (microsecond t / 1000)).
  split_and!.
  - exact Ht.
  - rewrite Htrace, <- app_assoc. reflexivity.
  - rewrite Hstore. apply lookup_insert_eq.
  - unfold reply_field. rewrite Hjson. reflexivity.
  - exact Hkey.
  - split; [apply TimeFacts.decimal_length |].
    apply PyStrInj.digits_value_decimal. change (10 ^ Z.of_nat 4) with 10000. lia.
  - split; [apply TimeFacts.decimal_length |].
    apply PyStrInj.digits_value_decimal. change (10 ^ Z.of_nat 2) with 100. lia.
  - split; [apply TimeFacts.decimal_length |].
    apply PyStrInj.digits_value_decimal. change (10 ^ Z.of_nat 2) with 100. lia.
  - split; [apply TimeFacts.decimal_length |].
    apply PyStrInj.digits_value_decimal. change (10 ^ Z.of_nat 2) with 100. lia.
  - split; [apply TimeFacts.decimal_length |].
    apply PyStrInj.digits_value_decimal. change (10 ^ Z.of_nat 2) with 100. lia.
  - split; [apply TimeFacts.decimal_length |].
    apply PyStrInj.digits_value_decimal. change (10 ^ Z.of_nat 2) with 100. lia.
  - split; [apply TimeFacts.decimal_length |].
    apply PyStrInj.digits_value_decimal. change (10 ^ Z.of_nat 3) with 1000.
    split; [apply Z.div_pos; lia | apply Z.div_lt_upper_bound; lia].
Qed.

Lemma clock_reads_app (tr1 tr2 : list event) :
  clock_reads (tr1 ++ tr2) = clock_reads tr1 ++ clock_reads tr2.
Proof. unfold clock_reads. apply flat_map_app. Qed.


(** *** The record count (C2) *)

(** C2. The [records_ingested] field of a success response is the length
    of the decoded upstream body when that body is a list (a JSON array),
    and 1 otherwise: 1 for the object [{"a": 1}], 3 for the array
    [[1, 2, 3]]. *)
Theorem records_ingested_counts_the_sequence
    (api_name : string) (st : state) (reply : http_reply) (st' : state) :
  route api_name st = (reply, st') ->
  http_status reply = 200 ->
  exists (cfg : api_config) (r : response) (data : json),
    apis_get api_name APIS = Some cfg /\
    answer st cfg = Returned r /\
    json_body r = Returned data /\
    reply_field "records_ingested" reply =
      Some (JInt (match data with
                  | JList items => Z.of_nat (length items)
                  | _ => 1
                  end)) /\
    (data = JDict [("a", JInt 1)] ->
     reply_field "records_ingested" reply = Some (JInt 1)) /\
    (data = JList [JInt 1; JInt 2; JInt 3] ->
     reply_field "records_ingested" reply = Some (JInt 3)).
Proof.
  intros Hroute H200.
  destruct (route_ingest_200 _ _ _ _ Hroute H200)
    as (cfg & r & data & Hcfg & Hans & Hst & Hbody & Hup & Hjson & Htrace & Hstore).
  exists cfg, r, data.
  assert (Hfield : reply_field "records_ingested" reply = Some (JInt (records_ingested data))).
  { unfold reply_field. rewrite Hjson. reflexivity. }
  split_and!; try assumption.
  - intros ->. exact Hfield.
  - intros ->. exact Hfield.
Qed.

(** *** Unknown names (C6) *)

(** C6. For a name that is not a key of the registry the reply is a 404
    whose [available_apis] lists all the keys of the registry, and the state
    is left as it was: nothing is fetched and nothing is written. *)
Theorem unknown_name_is_not_found (api_name : string) (st : state) :
  ~ In api_name (map fst APIS) ->
  exists reply : http_reply,
    route api_name st = (reply, st) /\
    http_status reply = 404 /\
    reply_field "status" reply = Some (JStr "error") /\
    reply_field "available_apis" reply = Some (JList (map JStr (map fst APIS))).
Proof.
  intros Hnot. apply apis_get_None in Hnot.
  exists {| http_status := 404; http_json := Some (JDict (not_found_body APIS api_name)) |}.
  split_and!; try reflexivity.
  - unfold route_ingest. rewrite (ingest_api_not_found _ _ _ _ _ _ _ Hnot). reflexivity.
  - unfold reply_field, not_found_body. simpl. now rewrite map_map.
Qed.

(** *** Writes (C9) *)

Lemma uploads_app (tr1 tr2 : list event) :
  uploads (tr1 ++ tr2) = uploads tr1 ++ uploads tr2.
Proof. unfold uploads. apply flat_map_app. Qed.

Lemma get_calls_app (tr1 tr2 : list event) :
  get_calls (tr1 ++ tr2) = get_calls tr1 ++ get_calls tr2.
Proof. unfold get_calls. apply flat_map_app. Qed.

(** What a call of [ingest_api] adds to the uploads of the trace: nothing
    unless the fetch succeeded, and then exactly one. *)
Lemma run_uploads (api_name : string) (st : state) (o : outcome view_result) (st' : state) :
  run api_name st o st' ->
  (uploads (trace st') = uploads (trace st) /\ store st' = store st /\
   (apis_get api_name APIS = None \/
    exists cfg e, apis_get api_name APIS = Some cfg /\ fetch_result (answer st cfg) = inl e))
  \/
  (exists cfg r data key text,
     apis_get api_name APIS = Some cfg /\
     fetch_result (answer st cfg) = inr (r, data) /\
     uploads (trace st') = uploads (trace st) ++ [(key, text)] /\
     (store st' = store st \/ store st' = <[key := text]> (store st))).
Proof.
  intros Hrun.
  destruct Hrun as [Hcfg | cfg e Hcfg Hf | cfg r data Hcfg Hf Hup
                    | cfg r data e Hcfg Hf Hup He | cfg r data e Hcfg Hf Hup He];
    cbn [trace store].
  - left. auto.
  - left. split_and!; [| reflexivity | right; eauto].
    unfold after_get, fetch_error_line.
    rewrite !uploads_app. destruct (is_RequestException e); simpl; now rewrite !app_nil_r.
  - right. exists cfg, r, data. do 2 eexists. split_and!; [exact Hcfg | exact Hf | | right; reflexivity].
    unfold before_upload, after_get, upload_event. rewrite !uploads_app. simpl.
    now rewrite !app_nil_r.
  - right. exists cfg, r, data. do 2 eexists. split_and!; [exact Hcfg | exact Hf | | left; reflexivity].
    unfold before_upload, after_get, upload_event. rewrite !uploads_app. simpl.
    now rewrite !app_nil_r.
  - right. exists cfg, r, data. do 2 eexists. split_and!; [exact Hcfg | exact Hf | | left; reflexivity].
    unfold before_upload, after_get, upload_event. rewrite !uploads_app. simpl.
    now rewrite !app_nil_r.
Qed.

Lemma fetch_error_no_write (api_name : string) (st : state) (o : outcome view_result)
    (st' : state) (cfg : api_config) (e : exn) :
  run api_name st o st' ->
  apis_get api_name APIS = Some cfg ->
  fetch_result (answer st cfg) = inl e ->
  store st' = store st /\ uploads (trace st') = uploads (trace st).
Proof.
  intros Hrun Hcfg Hf. apply run_uploads in Hrun.
  destruct Hrun as [(Hu & Hs & _) | (cfg' & r & data & key & text & Hcfg' & Hf' & _)];
    [auto |].
  rewrite Hcfg in Hcfg'. injection Hcfg' as <-. rewrite Hf in Hf'. discriminate.
Qed.

(** C9. An ingestion that fails before a successful fetch (unknown name,
    exception raised by the GET, error status, body that does not decode)
    leaves the store as it was and calls no upload; whatever the outcome, at
    most one upload is made, and one is made only when the GET returned, its
    status raised no error and its body decoded. *)
Theorem no_write_before_a_successful_fetch
    (api_name : string) (st : state) (o : outcome view_result) (st' : state) :
  ingest api_name st = (o, st') ->
  (~ In api_name (map fst APIS) ->
   store st' = store st /\ uploads (trace st') = uploads (trace st)) /\
  (forall cfg : api_config,
     apis_get api_name APIS = Some cfg ->
     (forall e, answer st cfg = Raised e ->
        store st' = store st /\ uploads (trace st') = uploads (trace st)) /\
     (forall r, answer st cfg = Returned r -> 400 <= status_code r < 600 ->
        store st' = store st /\ uploads (trace st') = uploads (trace st)) /\
     (forall r e, answer st cfg = Returned r -> json_body r = Raised e ->
        store st' = store st /\ uploads (trace st') = uploads (trace st))) /\
  (length (uploads (trace st')) <= S (length (uploads (trace st))))%nat /\
  (uploads (trace st') <> uploads (trace st) \/ store st' <> store st ->
   exists cfg r data,
     apis_get api_name APIS = Some cfg /\ answer st cfg = Returned r /\
     status_error r = None /\ json_body r = Returned data).
Proof.
  intros Hingest. apply ingest_api_run in Hingest.
  assert (Hfail : forall cfg e,
             apis_get api_name APIS = Some cfg -> fetch_result (answer st cfg) = inl e ->
             store st' = store st /\ uploads (trace st') = uploads (trace st)).
  { intros cfg e. apply (fetch_error_no_write _ _ _ _ _ _ Hingest). }
  apply run_uploads in Hingest.
  split_and!.
  - intros Hnot. apply apis_get_None in Hnot.
    destruct Hingest as [(Hu & Hs & _) | (cfg & r & data & key & text & Hcfg & _)]; [auto |].
    rewrite Hnot in Hcfg. discriminate.
  - intros cfg Hcfg. split_and!.
    + intros e Hans. apply (Hfail cfg e Hcfg). now rewrite Hans.
    + intros r Hans Hstatus.
      destruct (status_error_Some r Hstatus) as (e & He & _).
      apply (Hfail cfg e Hcfg). rewrite Hans. simpl. now rewrite He.
    + intros r e Hans Hbody.
      destruct (status_error r) as [e'|] eqn:He.
      * apply (Hfail cfg e' Hcfg). rewrite Hans. simpl. now rewrite He.
      * apply (Hfail cfg e Hcfg). rewrite Hans. simpl. now rewrite He, Hbody.
  - destruct Hingest as [(Hu & _) | (cfg & r & data & key & text & _ & _ & Hu & _)];
      rewrite Hu; [lia |].
    rewrite length_app. simpl. lia.
  - intros Hchanged.
    destruct Hingest as [(Hu & Hs & _) | (cfg & r & data & key & text & Hcfg & Hf & _)].
    + destruct Hchanged as [H | H]; contradiction.
    + apply fetch_result_inr in Hf. exists cfg, r, data. tauto.
Qed.

(** *** The stored record (C7) *)

Lemma full_data_record (api_name : string) (cfg : api_config) (r : response)
    (params : list (string * string)) (t : datetime) (data : json) :
  full_data api_name cfg r params t data =
  ingestion_record (ingestion_timestamp t) api_name cfg (status_code r) params data.
Proof. unfold full_data, ingestion_record, params_json. now destruct params. Qed.


(** *** Forwarding of the query string (C8, as amended) *)

Lemma first_value_filter (k k' : string) (l : list (string * string)) :
  k' <> k ->
  first_value k (List.filter (fun kv => negb (String.eqb (fst kv) k')) l) = first_value k l.
Proof.
  intros Hne. induction l as [|[k0 v0] l IH]; [reflexivity |].
  simpl. destruct (String.eqb_spec k0 k') as [-> | Hne0]; simpl.
  - destruct (String.eqb_spec k' k) as [E | _]; [contradiction | exact IH].
  - now rewrite IH.
Qed.

Lemma to_dict_first_value (k : string) (args : list (string * string)) :
  first_value k (to_dict args) = first_value k args.
Proof.
  induction args as [|[k' v] rest IH]; [reflexivity |].
  simpl. destruct (String.eqb_spec k' k) as [E | Hne]; [reflexivity |].
  now rewrite first_value_filter.
Qed.

Lemma filter_key_subset (k k' : string) (l : list (string * string)) :
  In k (map fst (List.filter (fun kv => negb (String.eqb (fst kv) k')) l)) ->
  In k (map fst l) /\ k <> k'.
Proof.
  induction l as [|[k0 v0] l IH]; simpl; [tauto |].
  destruct (String.eqb_spec k0 k') as [-> | Hne0]; simpl.
  - intros H. destruct (IH H). auto.
  - intros [<- | H]; [auto |]. destruct (IH H). auto.
Qed.

Lemma filter_key_NoDup (k' : string) (l : list (string * string)) :
  List.NoDup (map fst l) ->
  List.NoDup (map fst (List.filter (fun kv => negb (String.eqb (fst kv) k')) l)).
Proof.
  induction l as [|[k0 v0] l IH]; simpl; [constructor |].
  intros Hnd. apply NoDup_cons_iff in Hnd. destruct Hnd as [Hnotin Hnd].
  destruct (String.eqb_spec k0 k') as [-> | Hne0]; simpl; [now apply IH |].
  apply NoDup_cons_iff. split; [| now apply IH].
  intros Hin. apply Hnotin. now apply filter_key_subset in Hin.
Qed.

Lemma to_dict_NoDup (args : list (string * string)) : List.NoDup (map fst (to_dict args)).
Proof.
  induction args as [|[k v] rest IH]; simpl; [constructor |].
  apply NoDup_cons_iff. split; [| now apply filter_key_NoDup].
  intros Hin. apply filter_key_subset in Hin. now destruct Hin.
Qed.

Lemma filter_key_absent (k' : string) (l : list (string * string)) :
  ~ In k' (map fst l) ->
  List.filter (fun kv => negb (String.eqb (fst kv) k')) l = l.
Proof.
  induction l as [|[k0 v0] l IH]; simpl; [reflexivity |].
  intros Hnot. destruct (String.eqb_spec k0 k') as [-> | Hne0]; simpl.
  - exfalso. apply Hnot. now left.
  - rewrite IH; [reflexivity |]. intros Hin. apply Hnot. now right.
Qed.

Lemma to_dict_distinct_keys (args : list (string * string)) :
  List.NoDup (map fst args) -> to_dict args = args.
Proof.
  induction args as [|[k v] rest IH]; simpl; [reflexivity |].
  intros Hnd. apply NoDup_cons_iff in Hnd. destruct Hnd as [Hnotin Hnd].
  rewrite (IH Hnd). now rewrite filter_key_absent.
Qed.

Lemma run_get_calls (api_name : string) (cfg : api_config) (st : state)
    (o : outcome view_result) (st' : state) :
  apis_get api_name APIS = Some cfg ->
  run api_name st o st' ->
  get_calls (trace st') = get_calls (trace st) ++ [call cfg].
Proof.
  intros Hcfg Hrun.
  destruct Hrun as [Hcfg' | cfg' e Hcfg' Hf | cfg' r data Hcfg' Hf Hup
                    | cfg' r data e Hcfg' Hf Hup He | cfg' r data e Hcfg' Hf Hup He];
    rewrite Hcfg in Hcfg'; try discriminate; injection Hcfg' as <-; cbn [trace];
    unfold before_upload, after_get, upload_event, fetch_error_line;
    rewrite !get_calls_app; simpl; rewrite ?app_nil_r; try reflexivity.
  destruct (is_RequestException e); simpl; now rewrite app_nil_r.
Qed.

(** C8, amended. An ingestion of a registered name issues exactly one GET:
    to the registry URL, with a 30-second timeout, the user-agent
    [GCP-API-Ingestion/1.0] and, as parameters, the query string flattened
    to one value per key: every key keeps the value of its first occurrence,
    no key is repeated, and a query string without repeated keys is
    forwarded as it is. *)
Theorem query_string_forwarded_one_value_per_key
    (api_name : string) (cfg : api_config) (st : state)
    (o : outcome view_result) (st' : state) :
  apis_get api_name APIS = Some cfg ->
  ingest api_name st = (o, st') ->
  get_calls (trace st') =
    get_calls (trace st) ++
    [ {| get_url := api_url cfg;
         get_params := to_dict request_args;
         get_timeout := 30;
         get_headers := [("User-Agent", "GCP-API-Ingestion/1.0")] |} ] /\
  (forall k : string, first_value k (to_dict request_args) = first_value k request_args) /\
  List.NoDup (map fst (to_dict request_args)) /\
  (List.NoDup (map fst request_args) -> to_dict request_args = request_args).
Proof.
  intros Hcfg Hingest. apply ingest_api_run in Hingest.
  split_and!.
  - apply (run_get_calls _ _ _ _ _ Hcfg Hingest).
  - intros k. apply to_dict_first_value.
  - apply to_dict_NoDup.
  - apply to_dict_distinct_keys.
Qed.

(** *** Replies for a registered name (C4 and C5, as amended) *)

Lemma fetch_error_reply_request_exception
    (api_name : string) (cfg : api_config) (e : exn) :
  is_RequestException e = true ->
  surfaces_upstream_error (make_response (Returned (fetch_error_reply api_name cfg e)))
    api_name (api_url cfg) e.
Proof.
  intros He. unfold fetch_error_reply. rewrite He.
  unfold surfaces_upstream_error. split_and!; reflexivity.
Qed.

Lemma fetch_error_reply_other (api_name : string) (cfg : api_config) (e : exn) :
  is_RequestException e = false ->
  is_unexpected_error (make_response (Returned (fetch_error_reply api_name cfg e))) e.
Proof.
  intros He. unfold fetch_error_reply. rewrite He.
  unfold is_unexpected_error. split; reflexivity.
Qed.

(** The reply when the first [try] block raises [e]. *)
Lemma route_ingest_fetch_error (api_name : string) (cfg : api_config) (st : state)
    (reply : http_reply) (st' : state) (e : exn) :
  apis_get api_name APIS = Some cfg ->
  route api_name st = (reply, st') ->
  fetch_result (answer st cfg) = inl e ->
  reply = make_response (Returned (fetch_error_reply api_name cfg e)) /\
  store st' = store st.
Proof.
  intros Hcfg Hroute Hf. unfold route_ingest in Hroute.
  rewrite (ingest_api_fetch_error _ _ _ _ _ _ _ _ _ Hcfg Hf) in Hroute.
  injection Hroute as <- <-. split; reflexivity.
Qed.

(** C4, amended. For a registered name the reply is either a 200 whose
    [gcs_path] begins with [gs://<bucket>/api_name=<name>/], or a 500.  When
    the GET raises a [RequestException], or returns a 4xx or 5xx status, the
    500 carries the text of the upstream error in [message] and the
    registry URL in [api_url].  In every case exactly one GET is issued: no
    retry. *)
Theorem registered_name_reply
    (api_name : string) (cfg : api_config) (st : state)
    (reply : http_reply) (st' : state) :
  apis_get api_name APIS = Some cfg ->
  route api_name st = (reply, st') ->
  ((http_status reply = 200 /\
    exists rest : string,
      reply_field "gcs_path" reply =
        Some (JStr ("gs://" +:+ GCS_BUCKET +:+ "/api_name=" +:+ api_name +:+ "/" +:+ rest)))
   \/ http_status reply = 500) /\
  (forall e : exn,
     answer st cfg = Raised e -> is_RequestException e = true ->
     surfaces_upstream_error reply api_name (api_url cfg) e) /\
  (forall r : response,
     answer st cfg = Returned r -> 400 <= status_code r < 600 ->
     exists e : exn,
       status_error r = Some e /\
       surfaces_upstream_error reply api_name (api_url cfg) e) /\
  get_calls (trace st') = get_calls (trace st) ++ [call cfg].
Proof.
  intros Hcfg Hroute.
  destruct (route_ingest_run _ _ _ _ Hroute) as (o & Hrun & Hreply).
  split_and!.
  - subst reply.
    destruct Hrun as [Hcfg' | cfg' e Hcfg' Hf | cfg' r data Hcfg' Hf Hup
                      | cfg' r data e Hcfg' Hf Hup He | cfg' r data e Hcfg' Hf Hup He].
    + rewrite Hcfg in Hcfg'. discriminate.
    + right. unfold fetch_error_reply. destruct (is_RequestException e); reflexivity.
    + left. split; [reflexivity |].
      exists ("year=" +:+ PyStr.str (year (instant_of st cfg' api_name))
              +:+ "/month=" +:+ PyStr.format_0d 2 (month (instant_of st cfg' api_name))
              +:+ "/day=" +:+ PyStr.format_0d 2 (day (instant_of st cfg' api_name))
              +:+ "/data_" +:+ timestamp_str (instant_of st cfg' api_name) +:+ ".json").
      unfold reply_field. simpl. unfold filename, partition_path.
      now rewrite !PyStrFacts.app_assoc.
    + right. reflexivity.
    + right. reflexivity.
  - intros e Hans He.
    destruct (route_ingest_fetch_error _ _ _ _ _ e Hcfg Hroute) as [-> _].
    { now rewrite Hans. }
    now apply fetch_error_reply_request_exception.
  - intros r Hans Hstatus.
    destruct (status_error_Some r Hstatus) as (e & Hs & He).
    exists e. split; [exact Hs |].
    destruct (route_ingest_fetch_error _ _ _ _ _ e Hcfg Hroute) as [-> _].
    { rewrite Hans. simpl. now rewrite Hs. }
    now apply fetch_error_reply_request_exception.
  - apply (run_get_calls _ _ _ _ _ Hcfg Hrun).
Qed.

(** C5, amended. When the GET returns a 2xx status and the body does not
    decode, the reply is a 500 and nothing is written; it is the reply of the
    catch-all handler ([Unexpected error: ...], no URL) when the exception of
    the decoder is not a [RequestException], and the reply of the
    upstream-failure handler, with the attempted URL, when it is one. *)
Theorem decode_failure_reply
    (api_name : string) (cfg : api_config) (st : state)
    (reply : http_reply) (st' : state) (r : response) (e : exn) :
  apis_get api_name APIS = Some cfg ->
  route api_name st = (reply, st') ->
  answer st cfg = Returned r ->
  200 <= status_code r < 300 ->
  json_body r = Raised e ->
  http_status reply = 500 /\
  store st' = store st /\
  uploads (trace st') = uploads (trace st) /\
  (is_RequestException e = false -> is_unexpected_error reply e) /\
  (is_RequestException e = true ->
   surfaces_upstream_error reply api_name (api_url cfg) e).
Proof.
  intros Hcfg Hroute Hans Hstatus Hbody.
  assert (Hf : fetch_result (answer st cfg) = inl e).
  { rewrite Hans. simpl. now rewrite (status_error_None r Hstatus), Hbody. }
  destruct (route_ingest_fetch_error _ _ _ _ _ e Hcfg Hroute Hf) as [Hreply Hstore].
  split_and!.
  - rewrite Hreply. unfold fetch_error_reply. destruct (is_RequestException e); reflexivity.
  - exact Hstore.
  - destruct (route_ingest_run _ _ _ _ Hroute) as (o & Hrun & _).
    now destruct (fetch_error_no_write _ _ _ _ _ _ Hrun Hcfg Hf).
  - intros He. rewrite Hreply. now apply fetch_error_reply_other.
  - intros He. rewrite Hreply. now apply fetch_error_reply_request_exception.
Qed.

End IngestClaims.

(** * [/ingest-all] *)

Section IngestAll.

Context (GCS_BUCKET : string) (APIS : list (string * api_config))
        (json_dumps : json -> string) (w : world)
        (request_args : list (string * string)).

#[local] Abbreviation ingest := (ingest_api GCS_BUCKET APIS json_dumps w request_args).
#[local] Abbreviation entry_of := (ingest_all_entry GCS_BUCKET APIS json_dumps w request_args).
#[local] Abbreviation loop := (ingest_all_loop GCS_BUCKET APIS json_dumps w request_args).

(** What one turn of the loop appends, by what [ingest_api] did. *)
Lemma ingest_all_entry_cases (api_name : string) (st : state) :
  entry_of api_name st =
  match ingest api_name st with
  | (Returned (RetTuple r status), st') =>
      (Returned (JDict [ ("api_name", JStr api_name);
                         ("status", JStr (if status =? 200 then "success" else "error"));
                         ("result", get_json r) ]), st')
  | (Returned (RetResponse _), st') =>
      (Returned (JDict [ ("api_name", JStr api_name);
                         ("status", JStr "error");
                         ("error", JStr "'Response' object is not subscriptable") ]), st')
  | (Raised e, st') =>
      (Returned (JDict [ ("api_name", JStr api_name);
                         ("status", JStr "error");
                         ("error", JStr (exn_str e)) ]), st')
  end.
Proof.
  unfold ingest_all_entry, try_except, bind.
  destruct (ingest api_name st) as [[[r | r status] | e] st']; reflexivity.
Qed.

(** Every turn appends an entry named after the API, and the entry is
    tagged [error] whatever [ingest_api] did: a success comes back as a bare
    response object, which [result[1]] cannot index. *)
Lemma ingest_all_entry_tagged_error (api_name : string) (st : state) :
  exists (entry : json) (st' : state),
    entry_of api_name st = (Returned entry, st') /\
    st' = snd (ingest api_name st) /\
    entry_name entry = Some (JStr api_name) /\
    entry_tag entry = Some (JStr "error").
Proof.
  rewrite ingest_all_entry_cases.
  destruct (ingest api_name st) as [o st'] eqn:Hingest.
  pose proof (ingest_api_run _ _ _ _ _ _ _ _ _ Hingest) as Hrun.
  destruct Hrun as [Hcfg | cfg e Hcfg Hf | cfg r data Hcfg Hf Hup
                    | cfg r data e Hcfg Hf Hup He | cfg r data e Hcfg Hf Hup He];
    try (do 2 eexists; split_and!; reflexivity).
  unfold fetch_error_reply. destruct (is_RequestException e);
    do 2 eexists; split_and!; reflexivity.
Qed.

Lemma ingest_all_loop_shape (names : list string) :
  forall (results : list json) (st : state),
  exists (entries : list json) (st' : state),
    loop names results st = (Returned (results ++ entries), st') /\
    map entry_name entries = map (fun n => Some (JStr n)) names /\
    Forall (fun entry => entry_tag entry = Some (JStr "error")) entries.
Proof.
  induction names as [|api_name rest IH]; intros results st.
  - exists [], st. simpl. rewrite app_nil_r. split_and!; [reflexivity | reflexivity | constructor].
  - destruct (ingest_all_entry_tagged_error api_name st) as (entry & st1 & Hentry & _ & Hname & Htag).
    destruct (IH (results ++ [entry]) st1) as (entries & st' & Hloop & Hnames & Htags).
    exists (entry :: entries), st'. split_and!.
    + simpl. unfold bind at 1. rewrite Hentry, Hloop, <- app_assoc. reflexivity.
    + simpl. now rewrite Hname, Hnames.
    + now constructor.
Qed.

(** The reply of [/ingest-all]: always a 200 with overall status
    [completed] and one entry per registry key, in registry order; but no
    entry is ever tagged [success]. *)
Lemma route_ingest_all_shape (st : state) :
  exists (entries : list json) (st' : state),
    route_ingest_all GCS_BUCKET APIS json_dumps w request_args st =
      ({| http_status := 200;
          http_json := Some (JDict [ ("status", JStr "completed");
                                     ("message", JStr "Bulk ingestion completed");
                                     ("results", JList entries) ]) |}, st') /\
    length entries = length APIS /\
    map entry_name entries = map (fun kv => Some (JStr (fst kv))) APIS /\
    Forall (fun entry => entry_tag entry = Some (JStr "error")) entries.
Proof.
  destruct (ingest_all_loop_shape (map fst APIS) [] st) as (entries & st' & Hloop & Hnames & Htags).
  exists entries, st'. split_and!.
  - unfold route_ingest_all, ingest_all_apis, bind. rewrite Hloop. reflexivity.
  - apply (f_equal (@length _)) in Hnames. now rewrite !length_map in Hnames.
  - now rewrite Hnames, map_map.
  - exact Htags.
Qed.

(** C3. With the registry of the source and upstreams that all answer 200
    with the document [{"a": 1}], [/ingest/httpbin] succeeds (200, the object
    is written), yet in the reply of [/ingest-all] the entry of [httpbin],
    and that of every other API, is tagged [error] and carries the text of a
    [TypeError] instead of the success payload. *)
Theorem ingest_all_tags_success_as_error :
  let served := Sample.serving (JDict [("a", JInt 1)]) in
  http_status
    (fst (route_ingest GCS_BUCKET POSTMAN_APIS json_dumps served [] "httpbin"
            Sample.empty_state)) = 200 /\
  fst (route_ingest_all GCS_BUCKET POSTMAN_APIS json_dumps served [] Sample.empty_state) =
    {| http_status := 200;
       http_json :=
         Some (JDict
                 [ ("status", JStr "completed");
                   ("message", JStr "Bulk ingestion completed");
                   ("results",
                    JList
                      (map (fun n =>
                              JDict [ ("api_name", JStr n);
                                      ("status", JStr "error");
                                      ("error", JStr "'Response' object is not subscriptable") ])
                         ["httpbin"; "jsonplaceholder"; "reqres"; "cat-facts"; "dog-api"])) ]) |} /\
  map fst (uploads (trace (snd (route_ingest_all GCS_BUCKET POSTMAN_APIS json_dumps served []
                                  Sample.empty_state)))) =
    map (fun n => "api_name=" +:+ n +:+ "/year=2024/month=03/day=07/data_20240307_090501_004.json")
      ["httpbin"; "jsonplaceholder"; "reqres"; "cat-facts"; "dog-api"].
Proof.
  split_and!; vm_compute; reflexivity.
Qed.

End IngestAll.

(** * More about [/ingest/<api_name>] *)

Section IngestMore.

Context (GCS_BUCKET : string) (APIS : list (string * api_config))
        (json_dumps : json -> string) (w : world)
        (request_args : list (string * string)).

#[local] Abbreviation ingest := (ingest_api GCS_BUCKET APIS json_dumps w request_args).
#[local] Abbreviation route := (route_ingest GCS_BUCKET APIS json_dumps w request_args).
#[local] Abbreviation run := (ingest_run GCS_BUCKET APIS json_dumps w request_args).
#[local] Abbreviation answer := (upstream_answer w request_args).
#[local] Abbreviation instant_of := (ingestion_instant w request_args).
#[local] Abbreviation call := (upstream_call request_args).
#[local] Abbreviation text_of := (stored_text json_dumps request_args).
#[local] Abbreviation upload_of := (upload_answer GCS_BUCKET json_dumps w request_args).

Ltac run_cases H :=
  destruct H as [Hcfg | cfg e Hcfg Hf | cfg r data Hcfg Hf Hup
                 | cfg r data e Hcfg Hf Hup He | cfg r data e Hcfg Hf Hup He].

Lemma apis_get_registered (api_name : string) :
  In api_name (map fst APIS) <-> exists cfg, apis_get api_name APIS = Some cfg.
Proof.
  split.
  - intros Hin. destruct (apis_get api_name APIS) as [cfg|] eqn:Hget; [eauto |].
    exfalso. revert Hin Hget. clear.
    induction APIS as [|[k cfg] rest IH]; simpl; [tauto |].
    destruct (String.eqb_spec k api_name) as [-> | Hne]; [discriminate |].
    intros [E | Hin]; [contradiction | now apply IH].
  - intros [cfg Hget]. revert Hget. clear.
    induction APIS as [|[k cfg'] rest IH]; simpl; [discriminate |].
    destruct (String.eqb_spec k api_name) as [-> | Hne]; [now left |].
    intros H. right. now apply IH.
Qed.

Lemma stored_uploads_app (tr1 tr2 : list event) :
  stored_uploads (tr1 ++ tr2) = stored_uploads tr1 ++ stored_uploads tr2.
Proof. unfold stored_uploads. apply flat_map_app. Qed.

Lemma get_events_app (tr1 tr2 : list event) :
  get_events (tr1 ++ tr2) = get_events tr1 ++ get_events tr2.
Proof. unfold get_events. apply flat_map_app. Qed.

Lemma fetch_result_intro (o : outcome response) (r : response) (data : json) :
  o = Returned r -> status_error r = None -> json_body r = Returned data ->
  fetch_result o = inr (r, data).
Proof. intros -> Hs Hj. simpl. now rewrite Hs, Hj. Qed.

Lemma status_error_accepts (r : response) :
  ~ (400 <= status_code r < 600) -> status_error r = None.
Proof.
  intros H. unfold status_error.
  destruct ((400 <=? status_code r) && (status_code r <? 500)) eqn:H4.
  { apply andb_true_iff in H4. lia. }
  destruct ((500 <=? status_code r) && (status_code r <? 600)) eqn:H5; [| reflexivity].
  apply andb_true_iff in H5. lia.
Qed.

(** What each path does to the store and to the uploads that went
    through. *)
Lemma run_store (api_name : string) (st : state) (o : outcome view_result) (st' : state) :
  run api_name st o st' ->
  (http_status (make_response o) <> 200 /\
   store st' = store st /\
   stored_uploads (trace st') = stored_uploads (trace st) /\
   reply_field "file" (make_response o) = None)
  \/
  (exists key text,
     http_status (make_response o) = 200 /\
     reply_field "file" (make_response o) = Some (JStr key) /\
     store st' = <[key := text]> (store st) /\
     stored_uploads (trace st') = stored_uploads (trace st) ++ [(key, text)]).
Proof.
  intros Hrun. run_cases Hrun; cbn [trace store].
  - left. split_and!; [discriminate | reflexivity | reflexivity | reflexivity].
  - left. unfold fetch_error_reply, fetch_error_line, after_get.
    rewrite !stored_uploads_app.
    destruct (is_RequestException e); simpl;
      (split_and!; [discriminate | reflexivity | now rewrite !app_nil_r | reflexivity]).
  - right. do 2 eexists. split_and!; [reflexivity | reflexivity | reflexivity |].
    unfold before_upload, after_get, upload_event. rewrite Hup, !stored_uploads_app. simpl.
    now rewrite !app_nil_r.
  - left. split_and!; [discriminate | reflexivity | | reflexivity].
    unfold before_upload, after_get, upload_event. rewrite Hup, !stored_uploads_app. simpl.
    now rewrite !app_nil_r.
  - left. split_and!; [discriminate | reflexivity | | reflexivity].
    unfold before_upload, after_get, upload_event. rewrite Hup, !stored_uploads_app. simpl.
    now rewrite !app_nil_r.
Qed.

Lemma apis_get_unregistered (api_name : string) :
  apis_get api_name APIS = None -> ~ In api_name (map fst APIS).
Proof.
  intros Hnone Hin. apply apis_get_registered in Hin. destruct Hin as [cfg Hcfg].
  rewrite Hnone in Hcfg. discriminate.
Qed.

(** Only the unknown-name path answers 404. *)
Lemma run_404 (api_name : string) (st : state) (o : outcome view_result) (st' : state) :
  run api_name st o st' ->
  (apis_get api_name APIS = None <-> http_status (make_response o) = 404).
Proof.
  intros Hrun. run_cases Hrun; simpl.
  - split; auto.
  - unfold fetch_error_reply. rewrite Hcfg.
    destruct (is_RequestException e); simpl; split; discriminate.
  - rewrite Hcfg. split; discriminate.
  - rewrite Hcfg. split; discriminate.
  - rewrite Hcfg. split; discriminate.
Qed.

Lemma route_404 (api_name : string) (st : state) :
  apis_get api_name APIS = None <-> http_status (fst (route api_name st)) = 404.
Proof.
  destruct (route api_name st) as [reply st'] eqn:Hroute. cbn [fst].
  destruct (route_ingest_run _ _ _ _ _ _ _ _ _ Hroute) as (o & Hrun & ->).
  exact (run_404 _ _ _ _ Hrun).
Qed.

(** X1. The reply of [/ingest/<api_name>] has status 200, 404 or 500; it
    is 404 exactly when the name is not a key of the registry, and 200
    exactly when one upload went through; with any other status the store
    is left as it was. *)
Theorem ingest_reply_status_classes (api_name : string) (st : state) :
  (http_status (fst (route api_name st)) = 200 \/
   http_status (fst (route api_name st)) = 404 \/
   http_status (fst (route api_name st)) = 500) /\
  (http_status (fst (route api_name st)) = 404 <-> ~ In api_name (map fst APIS)) /\
  (http_status (fst (route api_name st)) = 200 <->
   exists key text,
     stored_uploads (trace (snd (route api_name st))) =
       stored_uploads (trace st) ++ [(key, text)]) /\
  (http_status (fst (route api_name st)) <> 200 ->
   store (snd (route api_name st)) = store st /\
   stored_uploads (trace (snd (route api_name st))) = stored_uploads (trace st)).
Proof.
  destruct (route api_name st) as [reply st'] eqn:Hroute. cbn [fst snd].
  destruct (route_ingest_run _ _ _ _ _ _ _ _ _ Hroute) as (o & Hrun & ->).
  pose proof (run_store _ _ _ _ Hrun) as Hstore.
  split_and!.
  - run_cases Hrun; simpl; auto.
    unfold fetch_error_reply. destruct (is_RequestException e); simpl; auto.
  - rewrite <- (run_404 _ _ _ _ Hrun). split.
    + intros H. now apply apis_get_unregistered.
    + intros H. now apply (apis_get_None APIS).
  - destruct Hstore as [(Hne & _ & Hu & _) | (key & text & H200 & _ & _ & Hu)].
    + split; [intros H; contradiction |].
      intros (key & text & Hu'). rewrite Hu in Hu'.
      apply (f_equal (@length _)) in Hu'. rewrite length_app in Hu'. simpl in Hu'. lia.
    + split; [eauto | auto].
  - intros Hne.
    destruct Hstore as [(_ & Hs & Hu & _) | (key & text & H200 & _)]; [auto | contradiction].
Qed.

(** X2. An ingestion changes the store at no other key than the one its
    reply names in [file]: every other key keeps its object, or stays
    absent; and no object is ever removed. *)
Theorem ingest_touches_only_its_key (api_name : string) (st : state) :
  (forall k : string,
     reply_field "file" (fst (route api_name st)) <> Some (JStr k) ->
     store (snd (route api_name st)) !! k = store st !! k) /\
  (forall k : string,
     is_Some (store st !! k) -> is_Some (store (snd (route api_name st)) !! k)).
Proof.
  destruct (route api_name st) as [reply st'] eqn:Hroute. cbn [fst snd].
  destruct (route_ingest_run _ _ _ _ _ _ _ _ _ Hroute) as (o & Hrun & ->).
  destruct (run_store _ _ _ _ Hrun)
    as [(_ & Hs & _) | (key & text & _ & Hfile & Hs & _)]; rewrite Hs.
  - split; auto.
  - split.
    + intros k Hk. rewrite Hfile in Hk.
      apply lookup_insert_ne. intros ->. now apply Hk.
    + intros k Hk. destruct (decide (key = k)) as [-> | Hne].
      * rewrite lookup_insert_eq. eauto.
      * now rewrite lookup_insert_ne.
Qed.

(** *** Failures of the upload *)

Lemma route_ingest_fetched (api_name : string) (st : state) (cfg : api_config)
    (r : response) (data : json) :
  apis_get api_name APIS = Some cfg ->
  answer st cfg = Returned r ->
  ~ (400 <= status_code r < 600) ->
  json_body r = Returned data ->
  fetch_result (answer st cfg) = inr (r, data).
Proof.
  intros _ Hans Hstatus Hbody.
  apply fetch_result_intro; [exact Hans | now apply status_error_accepts | exact Hbody].
Qed.

(** X3. When the fetch has succeeded and the upload raises an exception
    that is neither a [TypeError] nor a [ValueError], no handler catches it:
    it leaves [ingest_api], Flask answers 500 without a JSON body, and the
    store is unchanged, although the GET, the clock reading and the upload
    attempt have taken place. *)
Theorem upload_error_leaves_the_view
    (api_name : string) (cfg : api_config) (st : state)
    (r : response) (data : json) (e : exn) :
  apis_get api_name APIS = Some cfg ->
  answer st cfg = Returned r ->
  ~ (400 <= status_code r < 600) ->
  json_body r = Returned data ->
  upload_of st cfg api_name r data = Some e ->
  is_TypeError_or_ValueError e = false ->
  fst (ingest api_name st) = Raised e /\
  fst (route api_name st) = {| http_status := 500; http_json := None |} /\
  store (snd (route api_name st)) = store st /\
  get_calls (trace (snd (route api_name st))) = get_calls (trace st) ++ [call cfg] /\
  clock_reads (trace (snd (route api_name st))) =
    clock_reads (trace st) ++ [instant_of st cfg api_name] /\
  uploads (trace (snd (route api_name st))) =
    uploads (trace st) ++
    [(filename api_name (instant_of st cfg api_name),
      text_of api_name cfg r (instant_of st cfg api_name) data)] /\
  stored_uploads (trace (snd (route api_name st))) = stored_uploads (trace st).
Proof.
  intros Hcfg Hans Hstatus Hbody Hup He.
  pose proof (route_ingest_fetched _ _ _ _ _ Hcfg Hans Hstatus Hbody) as Hf.
  unfold route_ingest.
  rewrite (ingest_api_fetched _ _ _ _ _ _ _ _ _ _ Hcfg Hf), Hup, He. cbn [fst snd trace store].
  unfold before_upload, after_get, upload_event. rewrite Hup.
  rewrite !get_calls_app, !clock_reads_app, !uploads_app, !stored_uploads_app. simpl.
  rewrite !app_nil_r. split_and!; reflexivity.
Qed.

(** X4. When the fetch has succeeded and the upload raises a [TypeError]
    or a [ValueError], the reply is a 500 whose message is [JSON
    serialization failed: ] followed by the text of the exception, and
    nothing is stored. *)
Theorem serialization_failure_reply
    (api_name : string) (cfg : api_config) (st : state)
    (r : response) (data : json) (e : exn) :
  apis_get api_name APIS = Some cfg ->
  answer st cfg = Returned r ->
  ~ (400 <= status_code r < 600) ->
  json_body r = Returned data ->
  upload_of st cfg api_name r data = Some e ->
  is_TypeError_or_ValueError e = true ->
  fst (route api_name st) =
    {| http_status := 500;
       http_json :=
         Some (JDict [ ("status", JStr "error");
                       ("message", JStr ("JSON serialization failed: " +:+ exn_str e)) ]) |} /\
  store (snd (route api_name st)) = store st /\
  stored_uploads (trace (snd (route api_name st))) = stored_uploads (trace st).
Proof.
  intros Hcfg Hans Hstatus Hbody Hup He.
  pose proof (route_ingest_fetched _ _ _ _ _ Hcfg Hans Hstatus Hbody) as Hf.
  unfold route_ingest.
  rewrite (ingest_api_fetched _ _ _ _ _ _ _ _ _ _ Hcfg Hf), Hup, He. cbn [fst snd trace store].
  unfold before_upload, after_get, upload_event. rewrite Hup.
  rewrite !stored_uploads_app. simpl. rewrite !app_nil_r. split_and!; reflexivity.
Qed.

(** *** Statuses outside 4xx and 5xx *)

(** X5. A response is ingested whatever its status, as long as the status
    is not 4xx or 5xx: when its body decodes and the upload goes through,
    the reply is a 200 and the stored record keeps that status in
    [response_status], be it a 2xx or not. *)
Theorem non_error_status_is_ingested
    (api_name : string) (cfg : api_config) (st : state) (r : response) (data : json) :
  apis_get api_name APIS = Some cfg ->
  answer st cfg = Returned r ->
  ~ (400 <= status_code r < 600) ->
  json_body r = Returned data ->
  upload_of st cfg api_name r data = None ->
  http_status (fst (route api_name st)) = 200 /\
  store (snd (route api_name st)) !! filename api_name (instant_of st cfg api_name) =
    Some (json_dumps
            (ingestion_record (ingestion_timestamp (instant_of st cfg api_name))
               api_name cfg (status_code r) (to_dict request_args) data)).
Proof.
  intros Hcfg Hans Hstatus Hbody Hup.
  pose proof (route_ingest_fetched _ _ _ _ _ Hcfg Hans Hstatus Hbody) as Hf.
  unfold route_ingest.
  rewrite (ingest_api_fetched _ _ _ _ _ _ _ _ _ _ Hcfg Hf), Hup. cbn [fst snd trace store].
  split; [reflexivity |].
  rewrite lookup_insert_eq. unfold stored_text. now rewrite full_data_record.
Qed.

(** *** The record and the request *)

(** X6. In a successful ingestion the stored text is the serialized
    record whose [api_url], [request_params] and [response_status] are the
    URL and the parameters of the one GET that was issued and the status
    that GET returned, and whose [data] is the body it decoded to. *)
Theorem stored_record_describes_the_request (api_name : string) (st : state) :
  http_status (fst (route api_name st)) = 200 ->
  exists (cfg : api_config) (c : get_call) (r : response) (data : json) (key ts : string),
    apis_get api_name APIS = Some cfg /\
    get_events (trace (snd (route api_name st))) =
      get_events (trace st) ++ [(c, Returned r)] /\
    get_url c = api_url cfg /\
    json_body r = Returned data /\
    reply_field "file" (fst (route api_name st)) = Some (JStr key) /\
    reply_field "ingestion_timestamp" (fst (route api_name st)) = Some (JStr ts) /\
    store (snd (route api_name st)) !! key =
      Some (json_dumps
              (ingestion_record ts api_name cfg (status_code r) (get_params c) data)).
Proof.
  destruct (route api_name st) as [reply st'] eqn:Hroute. cbn [fst snd]. intros H200.
  destruct (route_ingest_200 _ _ _ _ _ _ _ _ _ Hroute H200)
    as (cfg & r & data & Hcfg & Hans & Hst & Hbody & Hup & Hjson & Htrace & Hstore).
  exists cfg, (call cfg), r, data, (filename api_name (instant_of st cfg api_name)),
    (ingestion_timestamp (instant_of st cfg api_name)).
  split_and!; try assumption; try reflexivity.
  - rewrite Htrace, get_events_app. simpl. reflexivity.
  - unfold reply_field. rewrite Hjson. reflexivity.
  - unfold reply_field. rewrite Hjson. reflexivity.
  - rewrite Hstore, lookup_insert_eq. unfold stored_text. now rewrite full_data_record.
Qed.

(** *** The clock *)

(** X7. [ingest_api] reads the clock only once the fetch has succeeded,
    and then once: for an unknown name, or when the first [try] block
    raises, the clock is not read at all. *)
Theorem clock_is_read_after_the_fetch (api_name : string) (st : state) :
  clock_reads (trace (snd (ingest api_name st))) =
  clock_reads (trace st) ++
  match apis_get api_name APIS with
  | None => []
  | Some cfg =>
      match fetch_result (answer st cfg) with
      | inl _ => []
      | inr _ => [instant_of st cfg api_name]
      end
  end.
Proof.
  destruct (apis_get api_name APIS) as [cfg|] eqn:Hcfg.
  2:{ rewrite (ingest_api_not_found _ _ _ _ _ _ _ Hcfg). simpl. now rewrite app_nil_r. }
  destruct (fetch_result (answer st cfg)) as [e | [r data]] eqn:Hf.
  - rewrite (ingest_api_fetch_error _ _ _ _ _ _ _ _ _ Hcfg Hf). cbn [snd trace].
    unfold after_get, fetch_error_line. rewrite !clock_reads_app.
    destruct (is_RequestException e); simpl; now rewrite !app_nil_r.
  - rewrite (ingest_api_fetched _ _ _ _ _ _ _ _ _ _ Hcfg Hf).
    destruct (upload_of st cfg api_name r data) as [e|] eqn:Hup;
      [destruct (is_TypeError_or_ValueError e) |];
      cbn [snd trace]; unfold before_upload, after_get, upload_event;
      rewrite !clock_reads_app; simpl; now rewrite !app_nil_r.
Qed.

(** *** Two ingestions in one millisecond *)


(** * More about [/ingest-all] *)

#[local] Abbreviation entry_of := (ingest_all_entry GCS_BUCKET APIS json_dumps w request_args).
#[local] Abbreviation loop := (ingest_all_loop GCS_BUCKET APIS json_dumps w request_args).
#[local] Abbreviation route_all := (route_ingest_all GCS_BUCKET APIS json_dumps w request_args).
#[local] Abbreviation each := (ingest_each GCS_BUCKET APIS json_dumps w request_args).

Lemma ingest_all_loop_each (names : list string) :
  forall (results : list json) (st : state),
  exists entries : list json,
    loop names results st = (Returned (results ++ entries), each names st) /\
    map entry_name entries = map (fun n => Some (JStr n)) names.
Proof.
  induction names as [|api_name rest IH]; intros results st.
  - exists []. simpl. rewrite app_nil_r. split; reflexivity.
  - destruct (ingest_all_entry_tagged_error GCS_BUCKET APIS json_dumps w request_args
                api_name st) as (entry & st1 & Hentry & Hst1 & Hname & _).
    destruct (IH (results ++ [entry]) st1) as (entries & Hloop & Hnames).
    exists (entry :: entries). split.
    + simpl. unfold bind at 1. rewrite Hentry, Hloop, <- app_assoc, Hst1. reflexivity.
    + simpl. now rewrite Hname, Hnames.
Qed.

Lemma route_all_each (st : state) : snd (route_all st) = each (map fst APIS) st.
Proof.
  destruct (ingest_all_loop_each (map fst APIS) [] st) as (entries & Hloop & _).
  unfold route_ingest_all, ingest_all_apis, bind. now rewrite Hloop.
Qed.

(** X11. [/ingest-all] always answers 200 with overall status
    [completed] and one entry per key of the registry, in registry order;
    the state it leaves is the one reached by calling [ingest_api] for each
    key in turn: no outcome of one API, be it an exception, keeps the
    following ones from being ingested. *)
Theorem ingest_all_ingests_each_api_in_turn (st : state) :
  exists entries : list json,
    route_all st =
      ({| http_status := 200;
          http_json := Some (JDict [ ("status", JStr "completed");
                                     ("message", JStr "Bulk ingestion completed");
                                     ("results", JList entries) ]) |},
       each (map fst APIS) st) /\
    map entry_name entries = map (fun kv => Some (JStr (fst kv))) APIS.
Proof.
  destruct (ingest_all_loop_each (map fst APIS) [] st) as (entries & Hloop & Hnames).
  exists entries. split.
  - unfold route_ingest_all, ingest_all_apis, bind. rewrite Hloop. reflexivity.
  - now rewrite Hnames, map_map.
Qed.

Lemma ingest_get_calls (api_name : string) (st : state) :
  get_calls (trace (snd (ingest api_name st))) =
  get_calls (trace st) ++
  match apis_get api_name APIS with
  | Some cfg => [call cfg]
  | None => []
  end.
Proof.
  destruct (ingest api_name st) as [o st'] eqn:Hingest. cbn [snd].
  pose proof (ingest_api_run _ _ _ _ _ _ _ _ _ Hingest) as Hrun.
  destruct (apis_get api_name APIS) as [cfg|] eqn:Hcfg.
  - apply (run_get_calls _ _ _ _ _ _ _ _ _ _ Hcfg Hrun).
  - rewrite (ingest_api_not_found _ _ _ _ _ _ _ Hcfg) in Hingest.
    injection Hingest as _ <-. now rewrite app_nil_r.
Qed.

Lemma each_get_calls (names : list string) :
  forall st : state,
    get_calls (trace (each names st)) =
    get_calls (trace st) ++
    flat_map (fun n => match apis_get n APIS with
                       | Some cfg => [call cfg]
                       | None => []
                       end) names.
Proof.
  induction names as [|api_name rest IH]; intros st; simpl.
  - now rewrite app_nil_r.
  - rewrite IH, ingest_get_calls, <- app_assoc. reflexivity.
Qed.

Lemma apis_get_In (apis : list (string * api_config)) (k : string) (cfg : api_config) :
  List.NoDup (map fst apis) -> In (k, cfg) apis -> apis_get k apis = Some cfg.
Proof.
  induction apis as [|[k0 cfg0] rest IH]; simpl; [tauto |].
  intros Hnd. apply NoDup_cons_iff in Hnd. destruct Hnd as [Hnotin Hnd].
  intros [[= -> ->] | Hin].
  - now rewrite String.eqb_refl.
  - destruct (String.eqb_spec k0 k) as [-> | Hne]; [| now apply IH].
    exfalso. apply Hnotin. apply in_map_iff. now exists (k, cfg).
Qed.

Lemma registry_calls (l : list (string * api_config)) :
  (forall kv, In kv l -> apis_get (fst kv) APIS = Some (snd kv)) ->
  flat_map (fun n => match apis_get n APIS with
                     | Some cfg => [call cfg]
                     | None => []
                     end) (map fst l) =
  map (fun kv => call (snd kv)) l.
Proof.
  induction l as [|kv rest IH]; intros Hall; simpl; [reflexivity |].
  rewrite (Hall kv) by now left. simpl. f_equal. apply IH.
  intros kv' Hin. apply Hall. now right.
Qed.

(** X12. With a registry without repeated keys, [/ingest-all] issues
    exactly one GET per API, in registry order, each to the URL of its API
    with the 30-second timeout and the user-agent of [ingest_api], and each
    carrying the flattened query parameters of the [/ingest-all] request
    itself. *)
Theorem ingest_all_issues_one_get_per_api (st : state) :
  List.NoDup (map fst APIS) ->
  get_calls (trace (snd (route_all st))) =
  get_calls (trace st) ++
  map (fun kv => {| get_url := api_url (snd kv);
                    get_params := to_dict request_args;
                    get_timeout := 30;
                    get_headers := [("User-Agent", "GCP-API-Ingestion/1.0")] |}) APIS.
Proof.
  intros Hnd. rewrite route_all_each, each_get_calls. f_equal.
  apply registry_calls. intros [k cfg] Hin. now apply apis_get_In.
Qed.

(** X13. The entry that [/ingest-all] records for an API whose ingestion
    fails embeds what [/ingest/<api_name>] would have answered in the same
    state: under [result], the JSON body of the 404 or 500 reply; and when
    an exception left [ingest_api], under [error], the text of that
    exception.  The state after the entry is the state after the single
    ingestion. *)
Theorem failed_entry_embeds_the_reply (api_name : string) (st : state) :
  exists entry : json,
    entry_of api_name st = (Returned entry, snd (route api_name st)) /\
    (forall body : json,
       http_status (fst (route api_name st)) <> 200 ->
       http_json (fst (route api_name st)) = Some body ->
       entry = JDict [ ("api_name", JStr api_name);
                       ("status", JStr "error");
                       ("result", body) ]) /\
    (http_json (fst (route api_name st)) = None ->
     exists e : exn,
       fst (ingest api_name st) = Raised e /\
       entry = JDict [ ("api_name", JStr api_name);
                       ("status", JStr "error");
                       ("error", JStr (exn_str e)) ]).
Proof.
  rewrite (ingest_all_entry_cases GCS_BUCKET APIS json_dumps w request_args).
  unfold route_ingest.
  destruct (ingest api_name st) as [o st'] eqn:Hingest. cbn [fst snd].
  pose proof (ingest_api_run _ _ _ _ _ _ _ _ _ Hingest) as Hrun.
  run_cases Hrun.
  - eexists. split; [reflexivity |]. split.
    + intros body _ [= <-]. reflexivity.
    + discriminate.
  - unfold fetch_error_reply.
    destruct (is_RequestException e); (eexists; split; [reflexivity |]; split;
      [intros body _ [= <-]; reflexivity | discriminate]).
  - eexists. split; [reflexivity |]. split.
    + intros body Hne. now contradiction Hne.
    + discriminate.
  - eexists. split; [reflexivity |]. split.
    + intros body _ [= <-]. reflexivity.
    + discriminate.
  - eexists. split; [reflexivity |]. split.
    + intros body _ Hbody. discriminate Hbody.
    + intros _. exists e. split; reflexivity.
Qed.

Lemma ingest_store_step (api_name : string) (st : state) :
  (store (snd (ingest api_name st)) = store st /\
   stored_uploads (trace (snd (ingest api_name st))) = stored_uploads (trace st))
  \/
  (exists key text,
     store (snd (ingest api_name st)) = <[key := text]> (store st) /\
     stored_uploads (trace (snd (ingest api_name st))) =
       stored_uploads (trace st) ++ [(key, text)]).
Proof.
  destruct (ingest api_name st) as [o st'] eqn:Hingest. cbn [snd].
  pose proof (ingest_api_run _ _ _ _ _ _ _ _ _ Hingest) as Hrun.
  destruct (run_store _ _ _ _ Hrun)
    as [(_ & Hs & Hu & _) | (key & text & _ & _ & Hs & Hu)]; [left | right]; eauto.
Qed.

Lemma each_keeps_objects (names : list string) :
  forall st : state,
    (forall k, is_Some (store st !! k) -> is_Some (store (each names st) !! k)) /\
    exists written : list (string * string),
      stored_uploads (trace (each names st)) = stored_uploads (trace st) ++ written /\
      Forall (fun kt => is_Some (store (each names st) !! fst kt)) written.
Proof.
  induction names as [|api_name rest IH]; intros st; simpl.
  - split; [auto |]. exists []. split; [now rewrite app_nil_r | constructor].
  - destruct (IH (snd (ingest api_name st))) as (Hkeep & written & Hu & Hall).
    destruct (ingest_store_step api_name st) as [[Hs Hu1] | (key & text & Hs & Hu1)].
    + split.
      * intros k Hk. apply Hkeep. now rewrite Hs.
      * exists written. split; [now rewrite Hu, Hu1 | exact Hall].
    + split.
      * intros k Hk. apply Hkeep. rewrite Hs.
        destruct (decide (key = k)) as [-> | Hne];
          [rewrite lookup_insert_eq; eauto | now rewrite lookup_insert_ne].
      * exists ((key, text) :: written). split.
        -- rewrite Hu, Hu1, <- app_assoc. reflexivity.
        -- constructor; [| exact Hall].
           apply Hkeep. rewrite Hs, lookup_insert_eq. eauto.
Qed.

(** X14. [/ingest-all] rolls nothing back: every key that held an object
    before the request still holds one after it, and so does the key of
    every upload that went through during the request, whatever happened to
    the APIs that came later. *)
Theorem ingest_all_keeps_what_was_written (st : state) :
  (forall k : string,
     is_Some (store st !! k) -> is_Some (store (snd (route_all st)) !! k)) /\
  exists written : list (string * string),
    stored_uploads (trace (snd (route_all st))) = stored_uploads (trace st) ++ written /\
    Forall (fun kt => is_Some (store (snd (route_all st)) !! fst kt)) written.
Proof.
  rewrite route_all_each. apply each_keeps_objects.
Qed.

(** * The other handlers *)

Context (elapsed_total_seconds : response -> spec_float).

#[local] Abbreviation probe_of := (probe w elapsed_total_seconds).
#[local] Abbreviation probe_loop := (test_connectivity_loop w elapsed_total_seconds).

Lemma apis_json_field (apis : list (string * api_config)) (api_name : string) :
  field api_name (apis_json apis) =
  match apis_get api_name apis with
  | Some cfg => Some (JDict [ ("url", JStr (api_url cfg));
                              ("description", JStr (api_description cfg)) ])
  | None => None
  end.
Proof.
  unfold apis_json. simpl.
  induction apis as [|[k cfg] rest IH]; simpl; [reflexivity |].
  destruct (String.eqb k api_name); [reflexivity | exact IH].
Qed.

(** X15. The index [/] and the lookup of [/ingest/<api_name>] agree: the
    index answers 200 without touching the state, its [apis] object has an
    entry for a name, holding the URL and the description of that API,
    exactly when the name is one that [/ingest/<api_name>] does not answer
    with 404. *)
Theorem index_lists_what_ingest_accepts (st : state) :
  exists apis : json,
    serve (list_apis APIS) st =
      ({| http_status := 200;
          http_json :=
            Some (JDict
                    [ ("status", JStr "success");
                      ("message", JStr "Available APIs for ingestion");
                      ("apis", apis);
                      ("usage",
                       JStr "Use /ingest/<api_name> to ingest data from a specific API") ]) |},
       st) /\
    (forall (api_name : string) (cfg : api_config),
       apis_get api_name APIS = Some cfg ->
       field api_name apis =
         Some (JDict [ ("url", JStr (api_url cfg));
                       ("description", JStr (api_description cfg)) ])) /\
    (forall (api_name : string) (st0 : state),
       field api_name apis = None <-> http_status (fst (route api_name st0)) = 404).
Proof.
  exists (apis_json APIS). split_and!.
  - reflexivity.
  - intros api_name cfg Hcfg. now rewrite apis_json_field, Hcfg.
  - intros api_name st0. rewrite apis_json_field, <- route_404.
    destruct (apis_get api_name APIS) as [cfg|]; split; auto; discriminate.
Qed.

(** X16. [/health] answers 200 with the configured bucket and the
    instant of the request in ISO-8601 with the offset [+00:00], where the
    ingestion timestamp of the same instant ends in [Z]; it reads the clock
    once and does nothing else. *)
Theorem health_check_reads_the_clock_only (st : state) :
  valid_datetime (utc_now w (trace st)) ->
  serve (health_check GCS_BUCKET w) st =
    ({| http_status := 200;
        http_json :=
          Some (JDict
                  [ ("status", JStr "healthy");
                    ("timestamp",
                     JStr (iso_date_form (utc_now w (trace st)) +:+ "T" +:+
                           iso_time_form (utc_now w (trace st)) +:+ "+00:00"));
                    ("gcs_bucket", JStr GCS_BUCKET) ]) |},
     {| trace := trace st ++ [EvNow (utc_now w (trace st))]; store := store st |}) /\
  ingestion_timestamp (utc_now w (trace st)) =
    iso_date_form (utc_now w (trace st)) +:+ "T" +:+
    iso_time_form (utc_now w (trace st)) +:+ "Z".
Proof.
  intros Hv. split.
  - unfold serve, health_check, bind, datetime_now_utc, ret, log. cbn.
    now rewrite (KeyFacts.isoformat_form _ Hv).
  - now apply TimeFacts.ingestion_timestamp_form.
Qed.

(** *** [/test-connectivity] *)

Lemma dict_set_fresh (k : string) (v : json) (fields : list (string * json)) :
  ~ In k (map fst fields) -> dict_set k v fields = fields ++ [(k, v)].
Proof.
  induction fields as [|[k' v'] rest IH]; simpl; [reflexivity |].
  intros Hnot. destruct (String.eqb_spec k' k) as [-> | Hne].
  - exfalso. apply Hnot. now left.
  - rewrite IH; [reflexivity |]. intros Hin. apply Hnot. now right.
Qed.

Lemma probe_step (cfg : api_config) (st : state) :
  probe_of cfg st =
  (Returned (probe_entry elapsed_total_seconds (requests_get w (trace st) (probe_call cfg))),
   {| trace := trace st ++ [EvGet (probe_call cfg) (requests_get w (trace st) (probe_call cfg))];
      store := store st |}).
Proof.
  unfold probe, try_except, bind, http_get, ret, log.
  destruct (requests_get w (trace st) (probe_call cfg)); reflexivity.
Qed.

Lemma probe_loop_runs (apis : list (string * api_config)) :
  forall (results : list (string * json)) (st : state),
  exists (answers : list (outcome response)) (results' : list (string * json)) (st' : state),
    probe_loop apis results st = (Returned results', st') /\
    length answers = length apis /\
    get_events (trace st') =
      get_events (trace st) ++ combine (map (fun kv => probe_call (snd kv)) apis) answers /\
    clock_reads (trace st') = clock_reads (trace st) /\
    uploads (trace st') = uploads (trace st) /\
    store st' = store st /\
    (List.NoDup (map fst apis) ->
     (forall k, In k (map fst apis) -> ~ In k (map fst results)) ->
     results' =
       results ++ combine (map fst apis) (map (probe_entry elapsed_total_seconds) answers)).
Proof.
  induction apis as [|[k cfg] rest IH]; intros results st.
  - exists [], results, st. simpl. rewrite !app_nil_r. split_and!; auto.
  - set (o := requests_get w (trace st) (probe_call cfg)).
    destruct (IH (dict_set k (probe_entry elapsed_total_seconds o) results)
                {| trace := trace st ++ [EvGet (probe_call cfg) o]; store := store st |})
      as (answers & results' & st' & Hloop & Hlen & Hgets & Hclock & Hup & Hstore & Hres).
    exists (o :: answers), results', st'. split_and!.
    + simpl. unfold bind at 1. rewrite probe_step. exact Hloop.
    + simpl. now rewrite Hlen.
    + rewrite Hgets. cbn [trace]. rewrite get_events_app. simpl.
      now rewrite <- app_assoc.
    + rewrite Hclock. cbn [trace]. rewrite clock_reads_app. simpl. now rewrite app_nil_r.
    + rewrite Hup. cbn [trace]. rewrite uploads_app. simpl. now rewrite app_nil_r.
    + exact Hstore.
    + intros Hnd Hfresh. simpl in Hnd. apply NoDup_cons_iff in Hnd.
      destruct Hnd as [Hnotin Hnd].
      assert (Hk : ~ In k (map fst results)) by (apply Hfresh; now left).
      rewrite Hres.
      * rewrite (dict_set_fresh _ _ _ Hk), <- app_assoc. reflexivity.
      * exact Hnd.
      * intros k' Hin'. rewrite (dict_set_fresh _ _ _ Hk), map_app, in_app_iff. simpl.
        intros [Hin | [-> | []]]; [| contradiction].
        apply (Hfresh k'); [now right | exact Hin].
Qed.


End IngestMore.

(** * The properties on sample requests *)

Module Instances.
Import Sample.

Lemma sample_clock_valid (w : world) :
  (forall h, utc_now w h = instant) -> forall h, four_digit_year (utc_now w h).
Proof. intros Hw h. rewrite Hw. unfold four_digit_year, valid_datetime. simpl. lia. Qed.

(** [GET /ingest/httpbin?page=2&limit=10] with an upstream serving
    [[1, 2, 3]] at 2024-03-07 09:05:01.004567 UTC. *)
Example sample_reply :
  fst (ingest_httpbin (serving three_records) plain_query) =
  {| http_status := 200;
     http_json :=
       Some (JDict
               [ ("status", JStr "success");
                 ("api_name", JStr "httpbin");
                 ("file",
                  JStr "api_name=httpbin/year=2024/month=03/day=07/data_20240307_090501_004.json");
                 ("gcs_path",
                  JStr "gs://ingest-landing/api_name=httpbin/year=2024/month=03/day=07/data_20240307_090501_004.json");
                 ("records_ingested", JInt 3);
                 ("ingestion_timestamp", JStr "2024-03-07T09:05:01.004567Z") ]) |}.
Proof. reflexivity. Qed.

(** The same request with an upstream serving the object [{"a": 1}]: one
    record. *)
Example sample_object_is_one_record :
  reply_field "records_ingested"
    (fst (ingest_httpbin (serving (JDict [("a", JInt 1)])) plain_query)) = Some (JInt 1).
Proof. reflexivity. Qed.

(** The key of the object stored by the sample request. *)
Lemma stored_key_on_sample :
  (forall h, four_digit_year (utc_now (serving three_records) h)) /\
  http_status (fst (ingest_httpbin (serving three_records) plain_query)) = 200 /\
  exists (before : list event) (t : datetime) (key text : string)
         (Y MM DD hh mi ss mmm : string),
    t = utc_now (serving three_records) before /\
    trace (snd (ingest_httpbin (serving three_records) plain_query)) =
      before ++ [ EvNow t; EvUpload bucket key text "application/json" None ] /\
    store (snd (ingest_httpbin (serving three_records) plain_query)) !! key = Some text /\
    reply_field "file" (fst (ingest_httpbin (serving three_records) plain_query)) =
      Some (JStr key) /\
    key = "api_name=" +:+ "httpbin" +:+ "/year=" +:+ Y +:+ "/month=" +:+ MM +:+
          "/day=" +:+ DD +:+ "/data_" +:+ Y +:+ MM +:+ DD +:+ "_" +:+
          hh +:+ mi +:+ ss +:+ "_" +:+ mmm +:+ ".json" /\
    written_on 4 (year t) Y /\
    written_on 2 (month t) MM /\
    written_on 2 (day t) DD /\
    written_on 2 (hour t) hh /\
    written_on 2 (minute t) mi /\
    written_on 2 (second t) ss /\
    written_on 3 (microsecond t / 1000) mmm.
Proof.
  assert (Hclock : forall h, four_digit_year (utc_now (serving three_records) h)).
  { apply sample_clock_valid. reflexivity. }
  assert (H200 : http_status (fst (ingest_httpbin (serving three_records) plain_query)) = 200).
  { reflexivity. }
  split; [exact Hclock |]. split; [exact H200 |].
  exact (stored_key_has_partitioned_form bucket POSTMAN_APIS json_dumps
           (serving three_records) plain_query "httpbin" empty_state _ _
           Hclock (surjective_pairing _) H200).
Defined.


(** The same request: three records. *)
Lemma records_ingested_on_sample :
  http_status (fst (ingest_httpbin (serving three_records) plain_query)) = 200 /\
  exists (cfg : api_config) (r : response) (data : json),
    apis_get "httpbin" POSTMAN_APIS = Some cfg /\
    upstream_answer (serving three_records) plain_query empty_state cfg = Returned r /\
    json_body r = Returned data /\
    reply_field "records_ingested"
      (fst (ingest_httpbin (serving three_records) plain_query)) =
      Some (JInt (match data with
                  | JList items => Z.of_nat (length items)
                  | _ => 1
                  end)) /\
    (data = JDict [("a", JInt 1)] ->
     reply_field "records_ingested"
       (fst (ingest_httpbin (serving three_records) plain_query)) = Some (JInt 1)) /\
    (data = JList [JInt 1; JInt 2; JInt 3] ->
     reply_field "records_ingested"
       (fst (ingest_httpbin (serving three_records) plain_query)) = Some (JInt 3)).
Proof.
  assert (H200 : http_status (fst (ingest_httpbin (serving three_records) plain_query)) = 200).
  { reflexivity. }
  split; [exact H200 |].
  exact (records_ingested_counts_the_sequence bucket POSTMAN_APIS json_dumps
           (serving three_records) plain_query "httpbin" empty_state _ _
           (surjective_pairing _) H200).
Defined.

(** [GET /ingest/weather]: not in the registry. *)
Lemma unknown_name_on_sample :
  ~ In "weather" (map fst POSTMAN_APIS) /\
  exists reply : http_reply,
    route_ingest bucket POSTMAN_APIS json_dumps (serving three_records) plain_query
      "weather" empty_state = (reply, empty_state) /\
    http_status reply = 404 /\
    reply_field "status" reply = Some (JStr "error") /\
    reply_field "available_apis" reply = Some (JList (map JStr (map fst POSTMAN_APIS))).
Proof.
  assert (Hnot : ~ In "weather" (map fst POSTMAN_APIS)).
  { simpl. intros H. repeat (destruct H as [H | H]; [discriminate H |]). exact H. }
  split; [exact Hnot |].
  exact (unknown_name_is_not_found bucket POSTMAN_APIS json_dumps
           (serving three_records) plain_query "weather" empty_state Hnot).
Defined.

(** [GET /ingest/httpbin] when the upstream cannot be reached: no write. *)
Lemma no_write_on_sample :
  call_httpbin unreachable plain_query =
    (fst (call_httpbin unreachable plain_query), snd (call_httpbin unreachable plain_query)) /\
  (~ In "httpbin" (map fst POSTMAN_APIS) ->
   store (snd (call_httpbin unreachable plain_query)) = store empty_state /\
   uploads (trace (snd (call_httpbin unreachable plain_query))) = uploads (trace empty_state)) /\
  (forall cfg : api_config,
     apis_get "httpbin" POSTMAN_APIS = Some cfg ->
     (forall e, upstream_answer unreachable plain_query empty_state cfg = Raised e ->
        store (snd (call_httpbin unreachable plain_query)) = store empty_state /\
        uploads (trace (snd (call_httpbin unreachable plain_query))) =
          uploads (trace empty_state)) /\
     (forall r, upstream_answer unreachable plain_query empty_state cfg = Returned r ->
        400 <= status_code r < 600 ->
        store (snd (call_httpbin unreachable plain_query)) = store empty_state /\
        uploads (trace (snd (call_httpbin unreachable plain_query))) =
          uploads (trace empty_state)) /\
     (forall r e, upstream_answer unreachable plain_query empty_state cfg = Returned r ->
        json_body r = Raised e ->
        store (snd (call_httpbin unreachable plain_query)) = store empty_state /\
        uploads (trace (snd (call_httpbin unreachable plain_query))) =
          uploads (trace empty_state))) /\
  (length (uploads (trace (snd (call_httpbin unreachable plain_query))))
   <= S (length (uploads (trace empty_state))))%nat /\
  (uploads (trace (snd (call_httpbin unreachable plain_query))) <> uploads (trace empty_state)
   \/ store (snd (call_httpbin unreachable plain_query)) <> store empty_state ->
   exists cfg r data,
     apis_get "httpbin" POSTMAN_APIS = Some cfg /\
     upstream_answer unreachable plain_query empty_state cfg = Returned r /\
     status_error r = None /\ json_body r = Returned data).
Proof.
  split; [apply surjective_pairing |].
  exact (no_write_before_a_successful_fetch bucket POSTMAN_APIS json_dumps
           unreachable plain_query "httpbin" empty_state _ _ (surjective_pairing _)).
Defined.

(** C9 as stated fails for a status that is neither 2xx nor one that
    [raise_for_status] rejects: the upstream answers 300 with a JSON body,
    and the handler stores one object and replies 200. *)
Lemma non_2xx_answer_is_written :
  apis_get "httpbin" POSTMAN_APIS = Some httpbin /\
  upstream_answer MoreSamples.multiple_choices plain_query empty_state httpbin =
    Returned MoreSamples.multiple_choices_response /\
  ~ (200 <= status_code MoreSamples.multiple_choices_response < 300) /\
  http_status (fst (ingest_httpbin MoreSamples.multiple_choices plain_query)) = 200 /\
  uploads (trace empty_state) = [] /\
  (exists text : string,
     uploads (trace (snd (ingest_httpbin MoreSamples.multiple_choices plain_query))) =
       [("api_name=httpbin/year=2024/month=03/day=07/data_20240307_090501_004.json", text)] /\
     store (snd (ingest_httpbin MoreSamples.multiple_choices plain_query))
       !! "api_name=httpbin/year=2024/month=03/day=07/data_20240307_090501_004.json" =
       Some text) /\
  ~ (store (snd (ingest_httpbin MoreSamples.multiple_choices plain_query)) = store empty_state /\
     uploads (trace (snd (ingest_httpbin MoreSamples.multiple_choices plain_query))) =
       uploads (trace empty_state)).
Proof.
  assert (Hup : exists text : string,
            uploads (trace (snd (ingest_httpbin MoreSamples.multiple_choices plain_query))) =
              [("api_name=httpbin/year=2024/month=03/day=07/data_20240307_090501_004.json",
                text)] /\
            store (snd (ingest_httpbin MoreSamples.multiple_choices plain_query)) =
              <["api_name=httpbin/year=2024/month=03/day=07/data_20240307_090501_004.json"
                := text]> (store empty_state)).
  { eexists. split; reflexivity. }
  destruct Hup as (text & Hup & Hstore).
  split_and!.
  - reflexivity.
  - reflexivity.
  - simpl. lia.
  - reflexivity.
  - reflexivity.
  - exists text. split; [exact Hup |]. rewrite Hstore. apply lookup_insert_eq.
  - intros [_ Hsame]. rewrite Hup in Hsame. discriminate Hsame.
Qed.


(** [GET /ingest/httpbin?tag=a&tag=b]: the upstream is asked for [tag=a]
    only. *)
Lemma flattened_query_on_sample :
  apis_get "httpbin" POSTMAN_APIS = Some httpbin /\
  get_calls (trace (snd (call_httpbin (serving three_records) repeated_query))) =
    get_calls (trace empty_state) ++
    [ {| get_url := api_url httpbin;
         get_params := to_dict repeated_query;
         get_timeout := 30;
         get_headers := [("User-Agent", "GCP-API-Ingestion/1.0")] |} ] /\
  (forall k : string, first_value k (to_dict repeated_query) = first_value k repeated_query) /\
  List.NoDup (map fst (to_dict repeated_query)) /\
  (List.NoDup (map fst repeated_query) -> to_dict repeated_query = repeated_query).
Proof.
  assert (Hcfg : apis_get "httpbin" POSTMAN_APIS = Some httpbin) by reflexivity.
  split; [exact Hcfg |].
  exact (query_string_forwarded_one_value_per_key bucket POSTMAN_APIS json_dumps
           (serving three_records) repeated_query "httpbin" httpbin empty_state _ _
           Hcfg (surjective_pairing _)).
Defined.

(** C8 as stated fails on [?tag=a&tag=b]: no GET carries the two
    parameters of the client. *)
Lemma repeated_keys_are_not_forwarded :
  ~ exists c : get_call,
      In c (get_calls (trace (snd (call_httpbin (serving three_records) repeated_query)))) /\
      get_params c = repeated_query.
Proof.
  intros (c & Hin & Hparams).
  assert (Hcalls :
            get_calls (trace (snd (call_httpbin (serving three_records) repeated_query))) =
            [ {| get_url := "https://httpbin.org/json";
                 get_params := [("tag", "a")];
                 get_timeout := 30;
                 get_headers := [("User-Agent", "GCP-API-Ingestion/1.0")] |} ]).
  { reflexivity. }
  rewrite Hcalls in Hin. destruct Hin as [<- | []].
  discriminate Hparams.
Qed.

(** [GET /ingest/httpbin] when the upstream answers 503. *)
Lemma registered_name_on_sample :
  apis_get "httpbin" POSTMAN_APIS = Some httpbin /\
  ((http_status (fst (ingest_httpbin overloaded plain_query)) = 200 /\
    exists rest : string,
      reply_field "gcs_path" (fst (ingest_httpbin overloaded plain_query)) =
        Some (JStr ("gs://" +:+ bucket +:+ "/api_name=" +:+ "httpbin" +:+ "/" +:+ rest)))
   \/ http_status (fst (ingest_httpbin overloaded plain_query)) = 500) /\
  (forall e : exn,
     upstream_answer overloaded plain_query empty_state httpbin = Raised e ->
     is_RequestException e = true ->
     surfaces_upstream_error (fst (ingest_httpbin overloaded plain_query))
       "httpbin" (api_url httpbin) e) /\
  (forall r : response,
     upstream_answer overloaded plain_query empty_state httpbin = Returned r ->
     400 <= status_code r < 600 ->
     exists e : exn,
       status_error r = Some e /\
       surfaces_upstream_error (fst (ingest_httpbin overloaded plain_query))
         "httpbin" (api_url httpbin) e) /\
  get_calls (trace (snd (ingest_httpbin overloaded plain_query))) =
    get_calls (trace empty_state) ++ [upstream_call plain_query httpbin].
Proof.
  assert (Hcfg : apis_get "httpbin" POSTMAN_APIS = Some httpbin) by reflexivity.
  split; [exact Hcfg |].
  exact (registered_name_reply bucket POSTMAN_APIS json_dumps overloaded plain_query
           "httpbin" httpbin empty_state _ _ Hcfg (surjective_pairing _)).
Defined.

(** C4 as stated fails when the upload raises [UnicodeEncodeError]: the
    reply is the 500 of the serialization handler, which names no URL. *)
Lemma serialization_failure_names_no_url :
  ~ stored_or_names_url bucket "httpbin" "https://httpbin.org/json"
      (fst (ingest_httpbin unencodable plain_query)).
Proof.
  assert (Hreply :
            fst (ingest_httpbin unencodable plain_query) =
            {| http_status := 500;
               http_json :=
                 Some (JDict
                         [ ("status", JStr "error");
                           ("message",
                            JStr "JSON serialization failed: 'utf-8' codec can't encode character '\ud800' in position 1: surrogates not allowed") ]) |}).
  { reflexivity. }
  rewrite Hreply.
  intros [[H200 _] | (_ & body & Hbody & Hmentions)].
  - discriminate H200.
  - injection Hbody as <-. vm_compute in Hmentions. discriminate Hmentions.
Qed.

(** [GET /ingest/httpbin] when the body of the 200 is not JSON. *)
Lemma decode_failure_on_sample :
  apis_get "httpbin" POSTMAN_APIS = Some httpbin /\
  upstream_answer not_json plain_query empty_state httpbin = Returned not_json_response /\
  200 <= status_code not_json_response < 300 /\
  json_body not_json_response = Raised not_json_error /\
  http_status (fst (ingest_httpbin not_json plain_query)) = 500 /\
  store (snd (ingest_httpbin not_json plain_query)) = store empty_state /\
  uploads (trace (snd (ingest_httpbin not_json plain_query))) = uploads (trace empty_state) /\
  (is_RequestException not_json_error = false ->
   is_unexpected_error (fst (ingest_httpbin not_json plain_query)) not_json_error) /\
  (is_RequestException not_json_error = true ->
   surfaces_upstream_error (fst (ingest_httpbin not_json plain_query))
     "httpbin" (api_url httpbin) not_json_error).
Proof.
  assert (Hcfg : apis_get "httpbin" POSTMAN_APIS = Some httpbin) by reflexivity.
  assert (Hans : upstream_answer not_json plain_query empty_state httpbin =
                 Returned not_json_response) by reflexivity.
  assert (Hstatus : 200 <= status_code not_json_response < 300) by (simpl; lia).
  assert (Hbody : json_body not_json_response = Raised not_json_error) by reflexivity.
  split; [exact Hcfg |]. split; [exact Hans |]. split; [exact Hstatus |].
  split; [exact Hbody |].
  exact (decode_failure_reply bucket POSTMAN_APIS json_dumps not_json plain_query
           "httpbin" httpbin empty_state _ _ not_json_response not_json_error
           Hcfg (surjective_pairing _) Hans Hstatus Hbody).
Defined.

(** C5 as stated fails when [Response.json()] raises
    [requests.exceptions.JSONDecodeError], a [RequestException]: the reply is
    not that of the catch-all handler. *)
Lemma decode_failure_not_in_catch_all :
  ~ is_unexpected_error (fst (ingest_httpbin not_json plain_query)) not_json_error.
Proof.
  intros [_ Hjson].
  assert (Hreply :
            http_json (fst (ingest_httpbin not_json plain_query)) =
            Some (JDict
                    [ ("status", JStr "error");
                      ("message",
                       JStr "Failed to fetch data from httpbin: Expecting value: line 1 column 1 (char 0)");
                      ("api_url", JStr "https://httpbin.org/json");
                      ("suggestion", JStr "Try a different API or check network connectivity") ])).
  { reflexivity. }
  rewrite Hreply in Hjson. discriminate Hjson.
Qed.

End Instances.

(** * The further properties on sample requests *)

Module MoreInstances.
Import Sample MoreSamples.

Lemma sample_instant_valid : valid_datetime instant.
Proof. unfold valid_datetime. simpl. lia. Qed.

(** [GET /ingest/httpbin] when the bucket refuses the write. *)
Lemma upload_error_on_sample :
  apis_get "httpbin" POSTMAN_APIS = Some httpbin /\
  upstream_answer write_forbidden plain_query empty_state httpbin =
    Returned (ok_response (Returned (JDict [("a", JInt 1)]))) /\
  ~ (400 <= status_code (ok_response (Returned (JDict [("a", JInt 1)]))) < 600) /\
  json_body (ok_response (Returned (JDict [("a", JInt 1)]))) = Returned (JDict [("a", JInt 1)]) /\
  upload_answer bucket json_dumps write_forbidden plain_query empty_state httpbin "httpbin"
    (ok_response (Returned (JDict [("a", JInt 1)]))) (JDict [("a", JInt 1)]) =
    Some write_forbidden_error /\
  is_TypeError_or_ValueError write_forbidden_error = false /\
  fst (call_httpbin write_forbidden plain_query) = Raised write_forbidden_error /\
  fst (ingest_httpbin write_forbidden plain_query) =
    {| http_status := 500; http_json := None |} /\
  store (snd (ingest_httpbin write_forbidden plain_query)) = store empty_state /\
  get_calls (trace (snd (ingest_httpbin write_forbidden plain_query))) =
    get_calls (trace empty_state) ++ [upstream_call plain_query httpbin] /\
  clock_reads (trace (snd (ingest_httpbin write_forbidden plain_query))) =
    clock_reads (trace empty_state) ++
    [ingestion_instant write_forbidden plain_query empty_state httpbin "httpbin"] /\
  uploads (trace (snd (ingest_httpbin write_forbidden plain_query))) =
    uploads (trace empty_state) ++
    [(filename "httpbin"
        (ingestion_instant write_forbidden plain_query empty_state httpbin "httpbin"),
      stored_text json_dumps plain_query "httpbin" httpbin
        (ok_response (Returned (JDict [("a", JInt 1)])))
        (ingestion_instant write_forbidden plain_query empty_state httpbin "httpbin")
        (JDict [("a", JInt 1)]))] /\
  stored_uploads (trace (snd (ingest_httpbin write_forbidden plain_query))) =
    stored_uploads (trace empty_state).
Proof.
  assert (Hcfg : apis_get "httpbin" POSTMAN_APIS = Some httpbin) by reflexivity.
  assert (Hans : upstream_answer write_forbidden plain_query empty_state httpbin =
                 Returned (ok_response (Returned (JDict [("a", JInt 1)])))) by reflexivity.
  assert (Hstatus : ~ (400 <= status_code (ok_response (Returned (JDict [("a", JInt 1)]))) < 600))
    by (simpl; lia).
  assert (Hbody : json_body (ok_response (Returned (JDict [("a", JInt 1)]))) =
                  Returned (JDict [("a", JInt 1)])) by reflexivity.
  assert (Hup : upload_answer bucket json_dumps write_forbidden plain_query empty_state httpbin
                  "httpbin" (ok_response (Returned (JDict [("a", JInt 1)])))
                  (JDict [("a", JInt 1)]) = Some write_forbidden_error) by reflexivity.
  assert (He : is_TypeError_or_ValueError write_forbidden_error = false) by reflexivity.
  split; [exact Hcfg |]. split; [exact Hans |]. split; [exact Hstatus |].
  split; [exact Hbody |]. split; [exact Hup |]. split; [exact He |].
  exact (upload_error_leaves_the_view bucket POSTMAN_APIS json_dumps write_forbidden
           plain_query "httpbin" httpbin empty_state _ _ _ Hcfg Hans Hstatus Hbody Hup He).
Defined.

(** [GET /ingest/httpbin] when the document does not encode. *)
Lemma serialization_failure_on_sample :
  apis_get "httpbin" POSTMAN_APIS = Some httpbin /\
  upstream_answer unencodable plain_query empty_state httpbin =
    Returned (ok_response (Returned (JStr "\ud800"))) /\
  ~ (400 <= status_code (ok_response (Returned (JStr "\ud800"))) < 600) /\
  json_body (ok_response (Returned (JStr "\ud800"))) = Returned (JStr "\ud800") /\
  upload_answer bucket json_dumps unencodable plain_query empty_state httpbin "httpbin"
    (ok_response (Returned (JStr "\ud800"))) (JStr "\ud800") =
    Some {| exn_cls := UnicodeEncodeError;
            exn_str := "'utf-8' codec can't encode character '\ud800' in position 1: surrogates not allowed" |} /\
  is_TypeError_or_ValueError
    {| exn_cls := UnicodeEncodeError;
       exn_str := "'utf-8' codec can't encode character '\ud800' in position 1: surrogates not allowed" |} = true /\
  fst (ingest_httpbin unencodable plain_query) =
    {| http_status := 500;
       http_json :=
         Some (JDict
                 [ ("status", JStr "error");
                   ("message",
                    JStr ("JSON serialization failed: " +:+
                          exn_str {| exn_cls := UnicodeEncodeError;
                                     exn_str := "'utf-8' codec can't encode character '\ud800' in position 1: surrogates not allowed" |})) ]) |} /\
  store (snd (ingest_httpbin unencodable plain_query)) = store empty_state /\
  stored_uploads (trace (snd (ingest_httpbin unencodable plain_query))) =
    stored_uploads (trace empty_state).
Proof.
  assert (Hcfg : apis_get "httpbin" POSTMAN_APIS = Some httpbin) by reflexivity.
  assert (Hans : upstream_answer unencodable plain_query empty_state httpbin =
                 Returned (ok_response (Returned (JStr "\ud800")))) by reflexivity.
  assert (Hstatus : ~ (400 <= status_code (ok_response (Returned (JStr "\ud800"))) < 600))
    by (simpl; lia).
  assert (Hbody : json_body (ok_response (Returned (JStr "\ud800"))) =
                  Returned (JStr "\ud800")) by reflexivity.
  split; [exact Hcfg |]. split; [exact Hans |]. split; [exact Hstatus |].
  split; [exact Hbody |]. split; [reflexivity |]. split; [reflexivity |].
  exact (serialization_failure_reply bucket POSTMAN_APIS json_dumps unencodable
           plain_query "httpbin" httpbin empty_state _ _ _ Hcfg Hans Hstatus Hbody
           eq_refl eq_refl).
Defined.

(** [GET /ingest/httpbin] when the upstream answers 203. *)
Lemma non_error_status_on_sample :
  apis_get "httpbin" POSTMAN_APIS = Some httpbin /\
  upstream_answer non_authoritative plain_query empty_state httpbin =
    Returned non_authoritative_response /\
  ~ (400 <= status_code non_authoritative_response < 600) /\
  json_body non_authoritative_response = Returned (JList [JInt 1; JInt 2; JInt 3]) /\
  upload_answer bucket json_dumps non_authoritative plain_query empty_state httpbin "httpbin"
    non_authoritative_response (JList [JInt 1; JInt 2; JInt 3]) = None /\
  http_status (fst (ingest_httpbin non_authoritative plain_query)) = 200 /\
  store (snd (ingest_httpbin non_authoritative plain_query))
    !! filename "httpbin"
         (ingestion_instant non_authoritative plain_query empty_state httpbin "httpbin") =
    Some (json_dumps
            (ingestion_record
               (ingestion_timestamp
                  (ingestion_instant non_authoritative plain_query empty_state httpbin "httpbin"))
               "httpbin" httpbin (status_code non_authoritative_response)
               (to_dict plain_query) (JList [JInt 1; JInt 2; JInt 3]))).
Proof.
  assert (Hcfg : apis_get "httpbin" POSTMAN_APIS = Some httpbin) by reflexivity.
  assert (Hans : upstream_answer non_authoritative plain_query empty_state httpbin =
                 Returned non_authoritative_response) by reflexivity.
  assert (Hstatus : ~ (400 <= status_code non_authoritative_response < 600)) by (simpl; lia).
  assert (Hbody : json_body non_authoritative_response =
                  Returned (JList [JInt 1; JInt 2; JInt 3])) by reflexivity.
  split; [exact Hcfg |]. split; [exact Hans |]. split; [exact Hstatus |].
  split; [exact Hbody |]. split; [reflexivity |].
  exact (non_error_status_is_ingested bucket POSTMAN_APIS json_dumps non_authoritative
           plain_query "httpbin" httpbin empty_state _ _ Hcfg Hans Hstatus Hbody eq_refl).
Defined.

(** The record stored by the sample request. *)
Lemma stored_record_request_on_sample :
  http_status
    (fst (route_ingest bucket POSTMAN_APIS json_dumps (serving three_records) plain_query
            "httpbin" empty_state)) = 200 /\
  exists (cfg : api_config) (c : get_call) (r : response) (data : json) (key ts : string),
    apis_get "httpbin" POSTMAN_APIS = Some cfg /\
    get_events
      (trace (snd (route_ingest bucket POSTMAN_APIS json_dumps (serving three_records)
                     plain_query "httpbin" empty_state))) =
      get_events (trace empty_state) ++ [(c, Returned r)] /\
    get_url c = api_url cfg /\
    json_body r = Returned data /\
    reply_field "file"
      (fst (route_ingest bucket POSTMAN_APIS json_dumps (serving three_records) plain_query
              "httpbin" empty_state)) = Some (JStr key) /\
    reply_field "ingestion_timestamp"
      (fst (route_ingest bucket POSTMAN_APIS json_dumps (serving three_records) plain_query
              "httpbin" empty_state)) = Some (JStr ts) /\
    store (snd (route_ingest bucket POSTMAN_APIS json_dumps (serving three_records)
                  plain_query "httpbin" empty_state)) !! key =
      Some (json_dumps
              (ingestion_record ts "httpbin" cfg (status_code r) (get_params c) data)).
Proof.
  assert (H200 : http_status
                   (fst (route_ingest bucket POSTMAN_APIS json_dumps (serving three_records)
                           plain_query "httpbin" empty_state)) = 200) by reflexivity.
  split; [exact H200 |].
  exact (stored_record_describes_the_request bucket POSTMAN_APIS json_dumps
           (serving three_records) plain_query "httpbin" empty_state H200).
Defined.



(** Before year 1000 the stamp is shorter: [%Y] prints 999 on three
    digits. *)
Example stamp_of_year_999 :
  timestamp_str {| year := 999; month := 12; day := 31;
                   hour := 23; minute := 59; second := 59; microsecond := 999999 |} =
  "9991231_235959_999".
Proof. reflexivity. Qed.

(** 09:05:01.004567 and 09:05:01.004999 give one key. *)
Lemma key_collision_on_sample :
  four_digit_year instant /\
  four_digit_year later_in_the_millisecond /\
  (filename "httpbin" instant = filename "httpbin" later_in_the_millisecond <->
   "httpbin" = "httpbin" /\ same_millisecond instant later_in_the_millisecond).
Proof.
  assert (H1 : four_digit_year instant).
  { unfold four_digit_year, valid_datetime. simpl. lia. }
  assert (H2 : four_digit_year later_in_the_millisecond).
  { unfold four_digit_year, valid_datetime. simpl. lia. }
  split; [exact H1 |]. split; [exact H2 |].
  exact (KeyFacts.keys_coincide_within_a_millisecond "httpbin" "httpbin"
           instant later_in_the_millisecond H1 H2).
Defined.

Lemma registry_keys_distinct : List.NoDup (map fst POSTMAN_APIS).
Proof.
  simpl. repeat (apply List.NoDup_cons; [simpl; intros H;
    repeat (destruct H as [H | H]; [discriminate H |]); exact H |]).
  apply List.NoDup_nil.
Qed.

(** [GET /ingest-all?page=2&limit=10] with the registry of the source. *)
Lemma one_get_per_api_on_sample :
  List.NoDup (map fst POSTMAN_APIS) /\
  get_calls
    (trace (snd (route_ingest_all bucket POSTMAN_APIS json_dumps (serving three_records)
                   plain_query empty_state))) =
  get_calls (trace empty_state) ++
  map (fun kv => {| get_url := api_url (snd kv);
                    get_params := to_dict plain_query;
                    get_timeout := 30;
                    get_headers := [("User-Agent", "GCP-API-Ingestion/1.0")] |}) POSTMAN_APIS.
Proof.
  split; [exact registry_keys_distinct |].
  exact (ingest_all_issues_one_get_per_api bucket POSTMAN_APIS json_dumps
           (serving three_records) plain_query empty_state registry_keys_distinct).
Defined.

(** [GET /health] at the sample instant. *)
Lemma health_check_on_sample :
  valid_datetime (utc_now (serving three_records) (trace empty_state)) /\
  serve (health_check bucket (serving three_records)) empty_state =
    ({| http_status := 200;
        http_json :=
          Some (JDict
                  [ ("status", JStr "healthy");
                    ("timestamp",
                     JStr (iso_date_form (utc_now (serving three_records) (trace empty_state))
                           +:+ "T" +:+
                           iso_time_form (utc_now (serving three_records) (trace empty_state))
                           +:+ "+00:00"));
                    ("gcs_bucket", JStr bucket) ]) |},
     {| trace := trace empty_state ++
                 [EvNow (utc_now (serving three_records) (trace empty_state))];
        store := store empty_state |}) /\
  ingestion_timestamp (utc_now (serving three_records) (trace empty_state)) =
    iso_date_form (utc_now (serving three_records) (trace empty_state)) +:+ "T" +:+
    iso_time_form (utc_now (serving three_records) (trace empty_state)) +:+ "Z".
Proof.
  split; [exact sample_instant_valid |].
  exact (health_check_reads_the_clock_only bucket (serving three_records) empty_state
           sample_instant_valid).
Defined.

End MoreInstances.
